(** * compare_clan_responses: the payload comparator, verified

    A shallow embedding of [integration/compare_clan_responses.py]: the
    environment check [_require_env], the subprocess adapter
    [_fetch_java_clan] and the comparator [_compare_dicts] with its two
    local functions [normalize] and [find_difference]; then the client
    adapter [_fetch_python_clan] and [main], which puts them together.

    The script is ordinary Python over JSON data, so the first half of this
    file fixes what the script takes from the language: strings, [repr],
    equality of objects, [json.dumps].  The second half is the script
    itself, function by function, followed by the properties proved of it.

    Conventions.
    - A Python [str] is a [string]; a character is read as the code point
      of the same number, so the strings covered are those with code points
      below 256.  Comparison of strings is by code point, as in Python.
    - A Python [dict] is the list of its items in insertion order; Python
      keeps the keys of a dict distinct, which is [wf_payload] below.
    - [print] and [raise SystemExit] are kept as the outcome of a call. *)

From Stdlib Require Import ZArith NArith String Ascii List Bool Lia DecimalString.
From stdpp Require Import gmap strings list sorting.

Open Scope string_scope.
Open Scope Z_scope.

(* ===================================================================== *)
(** ** Python strings *)
(* ===================================================================== *)

Module PyStr.

(** [ord(c)]. *)
Definition ord (c : ascii) : Z := Z.of_N (N_of_ascii c).

(** [s.startswith(p)]. *)
Definition startswith (p s : string) : bool := String.prefix p s.

(** [sep.join(parts)]. *)
Fixpoint join (sep : string) (parts : list string) : string :=
  match parts with
  | [] => ""
  | [x] => x
  | x :: rest => x +:+ sep +:+ join sep rest
  end.

(** [c.isspace()] for a code point below 256: the ASCII white space, the
    four separators FS, GS, RS and US, NEL and the no-break space. *)
Definition isspace (c : ascii) : bool :=
  let n := ord c in
  ((9 <=? n) && (n <=? 13)) || ((28 <=? n) && (n <=? 32)) || (n =? 133) || (n =? 160).

Fixpoint lstrip (s : string) : string :=
  match s with
  | String c rest => if isspace c then lstrip rest else s
  | EmptyString => ""
  end.

Fixpoint rstrip (s : string) : string :=
  match s with
  | String c rest =>
      let rest' := rstrip rest in
      if isspace c && String.eqb rest' "" then "" else String c rest'
  | EmptyString => ""
  end.

(** [s.strip()]. *)
Definition strip (s : string) : string := rstrip (lstrip s).

(** [c.isprintable()] for a code point below 256. *)
Definition isprintable (c : ascii) : bool :=
  let n := ord c in
  ((32 <=? n) && (n <=? 126)) || ((161 <=? n) && (n <=? 255) && negb (n =? 173)).

Definition hex_digit (n : Z) : ascii :=
  ascii_of_N (Z.to_N (if n <? 10 then 48 + n else 87 + n)).

(** The two lower-case hexadecimal digits of a code point below 256. *)
Definition hex2 (c : ascii) : string :=
  String (hex_digit (ord c / 16)) (String (hex_digit (ord c mod 16)) "").

Fixpoint contains (c : ascii) (s : string) : bool :=
  match s with
  | String d rest => Ascii.eqb c d || contains c rest
  | EmptyString => false
  end.

Definition squote : ascii := "'"%char.
Definition dquote : ascii := ascii_of_N 34.
Definition backslash : ascii := "\"%char.

Fixpoint repr_body (quote : ascii) (s : string) : string :=
  match s with
  | EmptyString => ""
  | String c rest =>
      let n := ord c in
      (if Ascii.eqb c quote || Ascii.eqb c backslash then String backslash (String c "")
       else if n =? 9 then String backslash "t"
       else if n =? 10 then String backslash "n"
       else if n =? 13 then String backslash "r"
       else if isprintable c then String c ""
       else String backslash ("x" +:+ hex2 c))
      +:+ repr_body quote rest
  end.

(** [repr(s)]: single quotes, unless the string holds a single quote and
    no double quote. *)
Definition repr (s : string) : string :=
  let quote := if contains squote s && negb (contains dquote s) then dquote else squote in
  String quote (repr_body quote s) +:+ String quote "".

(** The body of [json.encoder.py_encode_basestring_ascii]. *)
Fixpoint json_escape (s : string) : string :=
  match s with
  | EmptyString => ""
  | String c rest =>
      let n := ord c in
      (if Ascii.eqb c dquote || Ascii.eqb c backslash then String backslash (String c "")
       else if n =? 8 then String backslash "b"
       else if n =? 9 then String backslash "t"
       else if n =? 10 then String backslash "n"
       else if n =? 12 then String backslash "f"
       else if n =? 13 then String backslash "r"
       else if (32 <=? n) && (n <=? 126) then String c ""
       else String backslash ("u00" +:+ hex2 c))
      +:+ json_escape rest
  end.

(** [json.dumps(s)] of a string, [ensure_ascii] left at its default. *)
Definition json_string (s : string) : string :=
  String dquote (json_escape s) +:+ String dquote "".

(** [s <= t] on Python strings: lexicographic by code point. *)
Definition le (s t : string) : Prop := String.leb s t = true.

#[global] Instance le_dec s t : Decision (le s t).
Proof. unfold le. apply _. Defined.

End PyStr.

(* ===================================================================== *)
(** ** Python numbers *)
(* ===================================================================== *)

(** [repr(n)] of an integer: decimal digits, a minus sign when negative. *)
Definition int_repr (n : Z) : string := NilZero.string_of_int (Z.to_int n).

(** A Python float is an IEEE-754 binary64 value.  A finite one is kept as
    sign, mantissa and binary exponent, [(-1)^neg * m * 2^e] with
    [m < 2^53] and [-1074 <= e <= 971]; the two zeros are [m = 0].
    A NaN carries the identity of the object that holds it: Python's
    containers take an object to be equal to itself before they ask [==],
    and a NaN is the one object here that [==] does not find equal to
    itself. *)
Inductive pyfloat : Type :=
| Fnan (obj : N)
| Finf (neg : bool)
| Ffin (neg : bool) (m : N) (e : Z).

(** The shortest decimal that reads back as a given finite float
    ([_Py_dg_dtoa] in mode 0). *)
Module Dtoa.

(** The stored form: mantissa below [2^52] only for subnormal values. *)
Definition canonical (m e : Z) : Z * Z :=
  let shift := Z.min (52 - Z.log2 m) (e + 1074) in
  if 0 <? shift then (m * 2 ^ shift, e - shift) else (m, e).

(** [10^p <= xn / den]. *)
Definition ge_pow10 (xn den p : Z) : bool :=
  if 0 <=? p then 10 ^ p * den <=? xn else den <=? xn * 10 ^ (- p).

Fixpoint settle (fuel : nat) (xn den p : Z) : Z :=
  match fuel with
  | O => p
  | S fuel' =>
      if ge_pow10 xn den (p + 1) then settle fuel' xn den (p + 1)
      else if ge_pow10 xn den p then p
      else settle fuel' xn den (p - 1)
  end.

(** The [p] with [10^p <= xn / den < 10^(p+1)]: an estimate from the
    binary logarithm, then settled. *)
Definition log10_floor (xn den : Z) : Z :=
  settle 4 xn den ((Z.log2 xn - Z.log2 den) * 30103 / 100000).

(** Tries [n], [n+1], ... significant digits.  With [n] digits the two
    candidates are [d * 10^k] and [(d+1) * 10^k] around the value [xn/den];
    the first [n] for which one of them lies in the rounding interval
    [lo/den .. hi/den] wins, the nearer one if both do (the even one on a
    tie).  The interval is closed when the mantissa is even. *)
Fixpoint search (fuel : nat) (n : Z) (lo xn hi den p : Z) (closed : bool) : Z * Z :=
  let k := p - n + 1 in
  let t := 10 ^ Z.max k 0 * den in
  let u := 10 ^ Z.max (- k) 0 in
  let d := (xn * u) / t in
  let below := if closed then lo * u <=? d * t else lo * u <? d * t in
  let above := if closed then (d + 1) * t <=? hi * u else (d + 1) * t <? hi * u in
  let nearer_up :=
    match (xn * u - d * t) ?= ((d + 1) * t - xn * u) with
    | Lt => false
    | Gt => true
    | Eq => Z.odd d
    end in
  match fuel with
  | O => (d, k)
  | S fuel' =>
      if below && above then (if nearer_up then d + 1 else d, k)
      else if below then (d, k)
      else if above then (d + 1, k)
      else search fuel' (n + 1) lo xn hi den p closed
  end.

Fixpoint strip_zeros (fuel : nat) (d k : Z) : Z * Z :=
  match fuel with
  | O => (d, k)
  | S fuel' =>
      if (d mod 10 =? 0) && negb (d =? 0) then strip_zeros fuel' (d / 10) (k + 1)
      else (d, k)
  end.

(** Digits [ds] and decimal point position [decpt] of [m * 2^e]: the value
    printed is [0.ds * 10^decpt]. *)
Definition dtoa (m e : Z) : string * Z :=
  if m =? 0 then ("0", 1) else
  let '(cm, ce) := canonical m e in
  let sc := Z.max 0 (- ce) + 2 in
  let den := 2 ^ sc in
  let xn := cm * 2 ^ (ce + sc) in
  let up := 2 ^ (ce + sc - 1) in
  let dn := if (cm =? 2 ^ 52) && (-1074 <? ce) then 2 ^ (ce + sc - 2) else up in
  let p := log10_floor xn den in
  let '(d, k) := search 17 1 (xn - dn) xn (xn + up) den p (Z.even cm) in
  let '(d, k) := strip_zeros 20 d k in
  let ds := int_repr d in
  (ds, k + Z.of_nat (String.length ds)).

End Dtoa.

Fixpoint zeros (n : nat) : string :=
  match n with
  | O => ""
  | S n' => String "0" (zeros n')
  end.

(** The exponent of the scientific form: a sign and at least two digits. *)
Definition exp_repr (x : Z) : string :=
  (if x <? 0 then "-" else "+") +:+ (if Z.abs x <? 10 then "0" else "") +:+ int_repr (Z.abs x).

(** [format_float_short] for [repr]: scientific form when the decimal point
    lies more than 16 places right or more than 3 places left of the first
    digit, positional form (with [.0] for an integer) otherwise. *)
Definition format_short (digits : string) (decpt : Z) : string :=
  let nd := Z.of_nat (String.length digits) in
  if (decpt <=? -4) || (16 <? decpt) then
    match digits with
    | EmptyString => ""
    | String c rest =>
        String c (if String.eqb rest "" then "" else "." +:+ rest)
        +:+ "e" +:+ exp_repr (decpt - 1)
    end
  else if decpt <=? 0 then "0." +:+ zeros (Z.to_nat (- decpt)) +:+ digits
  else if nd <=? decpt then digits +:+ zeros (Z.to_nat (decpt - nd)) +:+ ".0"
  else substring 0 (Z.to_nat decpt) digits +:+ "." +:+
       substring (Z.to_nat decpt) (Z.to_nat (nd - decpt)) digits.

(** [repr(f)] of a float. *)
Definition float_repr (f : pyfloat) : string :=
  match f with
  | Fnan _ => "nan"
  | Finf neg => if neg then "-inf" else "inf"
  | Ffin neg m e =>
      let '(digits, decpt) := Dtoa.dtoa (Z.of_N m) e in
      (if neg then "-" else "") +:+ format_short digits decpt
  end.

(** [json.encoder.floatstr] with [allow_nan] left at its default. *)
Definition floatstr (f : pyfloat) : string :=
  match f with
  | Fnan _ => "NaN"
  | Finf neg => if neg then "-Infinity" else "Infinity"
  | Ffin _ _ _ => float_repr f
  end.

(* ===================================================================== *)
(** ** Payloads *)
(* ===================================================================== *)

(** What [json.loads] builds: [None], booleans, integers, floats, strings,
    lists, and dicts with string keys. *)
#[warnings="-register-all"]
Inductive payload : Type :=
| PNone
| PBool (b : bool)
| PInt (n : Z)
| PFloat (f : pyfloat)
| PStr (s : string)
| PList (elems : list payload)
| PDict (items : list (string * payload)).

(** [d.get(key)]: [None] stands for [key not in d]. *)
Fixpoint dict_get {A : Type} (key : string) (items : list (string * A)) : option A :=
  match items with
  | [] => None
  | (k, v) :: rest => if String.eqb k key then Some v else dict_get key rest
  end.

(** [list(d)]: the keys, in insertion order. *)
Definition dict_keys {A : Type} (items : list (string * A)) : list string := map fst items.

(** The keys of every dict of a payload are distinct. *)
Fixpoint wf_payload (v : payload) : Prop :=
  match v with
  | PList elems =>
      (fix all xs :=
         match xs with
         | [] => True
         | x :: xs' => wf_payload x ∧ all xs'
         end) elems
  | PDict items =>
      NoDup (dict_keys items) ∧
      (fix all xs :=
         match xs with
         | [] => True
         | (_, x) :: xs' => wf_payload x ∧ all xs'
         end) items
  | _ => True
  end.

Inductive pytype : Type := TNone | TBool | TInt | TFloat | TStr | TList | TDict.

#[global] Instance pytype_eq_dec : EqDecision pytype.
Proof. solve_decision. Defined.

(** [type(v)]. *)
Definition type_of (v : payload) : pytype :=
  match v with
  | PNone => TNone
  | PBool _ => TBool
  | PInt _ => TInt
  | PFloat _ => TFloat
  | PStr _ => TStr
  | PList _ => TList
  | PDict _ => TDict
  end.

(** [t.__name__]. *)
Definition type_name (t : pytype) : string :=
  match t with
  | TNone => "NoneType"
  | TBool => "bool"
  | TInt => "int"
  | TFloat => "float"
  | TStr => "str"
  | TList => "list"
  | TDict => "dict"
  end.

(** [repr(v)]. *)
Fixpoint py_repr (v : payload) : string :=
  match v with
  | PNone => "None"
  | PBool b => if b then "True" else "False"
  | PInt n => int_repr n
  | PFloat f => float_repr f
  | PStr s => PyStr.repr s
  | PList elems => "[" +:+ PyStr.join ", " (map py_repr elems) +:+ "]"
  | PDict items =>
      "{" +:+ PyStr.join ", " (map (λ '(k, x), PyStr.repr k +:+ ": " +:+ py_repr x) items) +:+ "}"
  end.

(** *** Equality *)

(** [m1 * 2^e1 = m2 * 2^e2], exactly. *)
Definition dyadic_eqb (m1 e1 m2 e2 : Z) : bool :=
  let e := Z.min e1 e2 in
  m1 * 2 ^ (e1 - e) =? m2 * 2 ^ (e2 - e).

Definition signed (neg : bool) (m : N) : Z :=
  if neg then - Z.of_N m else Z.of_N m.

(** [f == g] on floats: by value, the two zeros equal, a NaN equal to
    nothing. *)
Definition float_eq (f g : pyfloat) : bool :=
  match f, g with
  | Ffin s1 m1 e1, Ffin s2 m2 e2 => dyadic_eqb (signed s1 m1) e1 (signed s2 m2) e2
  | Finf s1, Finf s2 => Bool.eqb s1 s2
  | _, _ => false
  end.

(** [n == f] for an integer and a float: Python compares the exact values,
    without rounding the integer. *)
Definition int_float_eq (n : Z) (f : pyfloat) : bool :=
  match f with
  | Ffin s m e => dyadic_eqb n 0 (signed s m) e
  | _ => false
  end.

(** Booleans, integers and floats compare as numbers ([bool] is a subclass
    of [int]). *)
Definition py_number (v : payload) : option (Z + pyfloat) :=
  match v with
  | PBool b => Some (inl (if b then 1 else 0))
  | PInt n => Some (inl n)
  | PFloat f => Some (inr f)
  | _ => None
  end.

Definition number_eq (x y : Z + pyfloat) : bool :=
  match x, y with
  | inl m, inl n => m =? n
  | inl n, inr f | inr f, inl n => int_float_eq n f
  | inr f, inr g => float_eq f g
  end.

(** [a == b] when one of the two is neither a list nor a dict. *)
Definition scalar_eq (a b : payload) : bool :=
  match a, b with
  | PNone, PNone => true
  | PStr s, PStr t => String.eqb s t
  | _, _ =>
      match py_number a, py_number b with
      | Some x, Some y => number_eq x y
      | _, _ => false
      end
  end.

(** [a is b], as far as it can change a comparison: two NaN leaves are the
    same object when they carry the same identity.  For every other value
    [a is b] implies [a == b], and nothing is lost by answering [false]. *)
Definition same_object (a b : payload) : bool :=
  match a, b with
  | PFloat (Fnan i), PFloat (Fnan j) => N.eqb i j
  | _, _ => false
  end.

(** [a == b].  Lists are equal when they have the same length and equal
    elements at each index; dicts when they have the same number of items
    and every item of the left one has an equal value under its key in the
    right one, whatever the order of insertion.  The elements of a
    container are compared by [PyObject_RichCompareBool], which lets an
    object be equal to itself before it asks [==]. *)
Fixpoint py_eq (a b : payload) : bool :=
  match a, b with
  | PList xs, PList ys =>
      (fix each xs ys :=
         match xs, ys with
         | [], [] => true
         | x :: xs', y :: ys' => (same_object x y || py_eq x y) && each xs' ys'
         | _, _ => false
         end) xs ys
  | PDict xs, PDict ys =>
      (length xs =? length ys)%nat &&
      (fix each xs :=
         match xs with
         | [] => true
         | (k, x) :: xs' =>
             match dict_get k ys with
             | Some y => same_object x y || py_eq x y
             | None => false
             end && each xs'
         end) xs
  | _, _ => scalar_eq a b
  end.

(** [PyObject_RichCompareBool(a, b, Py_EQ)]. *)
Definition rich_eq (a b : payload) : bool := same_object a b || py_eq a b.

(** *** json.dumps *)

(** The order [sorted] puts the items of a dict in: by key. *)
Definition item_le (x y : string * string) : Prop := PyStr.le x.1 y.1.

#[global] Instance item_le_dec x y : Decision (item_le x y).
Proof. unfold item_le. apply _. Defined.

(** [json.dumps(v, sort_keys=True)], all other options at their defaults:
    items separated by a comma and a space, a key from its value by a colon
    and a space.  The values of a dict are serialized before its items are
    sorted; the sort looks at keys only. *)
Fixpoint json_dumps (v : payload) : string :=
  match v with
  | PNone => "null"
  | PBool b => if b then "true" else "false"
  | PInt n => int_repr n
  | PFloat f => floatstr f
  | PStr s => PyStr.json_string s
  | PList elems => "[" +:+ PyStr.join ", " (map json_dumps elems) +:+ "]"
  | PDict items =>
      "{" +:+
      PyStr.join ", "
        (map (λ '(k, text), PyStr.json_string k +:+ ": " +:+ text)
           (merge_sort item_le (map (λ '(k, x), (k, json_dumps x)) items)))
      +:+ "}"
  end.

(* ===================================================================== *)
(** ** The script *)
(* ===================================================================== *)

(** A call either returns or raises; the script raises [SystemExit] only. *)
Inductive exn : Type := SystemExit (msg : string).

Inductive result (A : Type) : Type :=
| Return (a : A)
| Raise (e : exn).
Arguments Return {A} a.
Arguments Raise {A} e.

(** What a call wrote, and to which stream. *)
Inductive event : Type :=
| Stdout (line : string)
| Stderr (text : string).

(** The outcome of a call that may write: what it wrote, then how it ended. *)
Definition io (A : Type) : Type := list event * result A.

Definition newline : string := String (ascii_of_N 10) "".

Definition DEFAULT_TAG : string := "#2JLYPYRRY".

(** *** _require_env *)

(** [os.environ] is a map from names to values; [os.getenv(name)] is its
    lookup.  [not value] holds of [None] and of the empty string. *)
Definition _require_env (environ : gmap string string) (name : string) : result string :=
  let value := environ !! name in
  match value with
  | None | Some "" => Raise (SystemExit ("Missing required environment variable: " +:+ name))
  | Some value => Return value
  end.

(** *** _fetch_java_clan *)

(** [subprocess.CompletedProcess], with [capture_output] and [text] set. *)
Record CompletedProcess : Type := {
  returncode : Z;
  stdout : string;
  stderr : string
}.

Section Fetch.

(** The platform and the two library calls of the adapter are taken as
    they come: [os.name], [str(root / name)] on paths, [subprocess.run]
    from the command, the environment and the working directory to the
    completed process, and [json.loads], which gives a payload or the
    text of its [JSONDecodeError]. *)
Variable os_name : string.
Variable path_join : string → string → string.
Variable subprocess_run : list string → gmap string string → string → CompletedProcess.
Variable json_loads : string → payload + string.

(** The command line [cmd] of the adapter. *)
Definition gradle_command (tag : string) (repo_root : string) : list string :=
  let gradlew :=
    if String.eqb os_name "nt" then path_join repo_root "gradlew.bat"
    else path_join repo_root "gradlew" in
  [gradlew; "-q"; ":coc-java:runClanRawDump"; "--args=" +:+ tag].

Definition _fetch_java_clan (tag : string) (env : gmap string string) (repo_root : string)
  : io payload :=
  let cmd := gradle_command tag repo_root in
  let result := subprocess_run cmd env repo_root in
  if negb (returncode result =? 0) then
    ([Stderr (stderr result)],
     Raise (SystemExit ("Java client execution failed with exit code "
                        +:+ int_repr (returncode result))))
  else
    let output := PyStr.strip (stdout result) in
    if String.eqb output "" then
      ([], Raise (SystemExit "Java client did not return any JSON output"))
    else
      match json_loads output with
      | inl parsed => ([], Return parsed)
      | inr exc =>
          ([], Raise (SystemExit ("Failed to parse Java client output as JSON: " +:+ exc
                                  +:+ newline +:+ "Output was:" +:+ newline +:+ output)))
      end.

End Fetch.

(** *** _compare_dicts *)

Definition ignore_keys : gset string := {[ "builderBaseRank"; "status_code"; "timestamp" ]}.

(** The filter of the dict comprehension of [normalize]. *)
Definition kept (k : string) : bool :=
  negb (PyStr.startswith "_" k) && bool_decide (k ∉ ignore_keys).

(** [normalize].  The comprehension goes through the items in order and
    keeps a key, with its value normalized, when the filter passes. *)
Fixpoint normalize (value : payload) : payload :=
  match value with
  | PDict items =>
      PDict (omap (λ '(k, v), if kept k then Some (k, normalize v) else None) items)
  | PList elems => PList (map normalize elems)
  | _ => value
  end.

(** [sorted(set(a) | set(b))] on two dicts. *)
Definition sorted_keys (a b : list (string * payload)) : list string :=
  merge_sort PyStr.le
    (elements (list_to_set (dict_keys a) ∪ list_to_set (dict_keys b) : gset string)).

(** The truth value of a string. *)
Definition truthy (s : string) : bool := negb (String.eqb s "").

(** [find_difference].  The recursion is on the left value.  In a dict the
    descent into [a[key]] is prepared for every item of [a] before the loop
    over the keys, so that the loop looks it up under the key; see
    [find_difference_dict] for the loop with [a[key]] and [b[key]] as the
    source has them. *)
Fixpoint find_difference (a : payload) : payload → string → string :=
  λ b path,
  if negb (bool_decide (type_of a = type_of b)) then
    path +:+ ": type mismatch " +:+ type_name (type_of a) +:+ " vs " +:+ type_name (type_of b)
  else
    match a with
    | PDict xs =>
        let ys := match b with PDict ys => ys | _ => [] end in
        let descend := map (λ '(k, x), (k, find_difference x)) xs in
        (fix loop (keys : list string) : string :=
           match keys with
           | [] => ""
           | key :: keys' =>
               match dict_get key descend with
               | None => path +:+ "." +:+ key +:+ ": missing from Python payload"
               | Some into =>
                   match dict_get key ys with
                   | None => path +:+ "." +:+ key +:+ ": missing from Java payload"
                   | Some y =>
                       let diff := into y (path +:+ "." +:+ key) in
                       if truthy diff then diff else loop keys'
                   end
               end
           end) (sorted_keys xs ys)
    | PList xs =>
        let ys := match b with PList ys => ys | _ => [] end in
        if negb (length xs =? length ys)%nat then
          path +:+ ": list length " +:+ int_repr (Z.of_nat (length xs))
               +:+ " vs " +:+ int_repr (Z.of_nat (length ys))
        else
          (fix loop (idx : Z) (xs ys : list payload) : string :=
             match xs, ys with
             | aval :: xs', bval :: ys' =>
                 let diff := find_difference aval bval (path +:+ "[" +:+ int_repr idx +:+ "]") in
                 if truthy diff then diff else loop (idx + 1) xs' ys'
             | _, _ => ""
             end) 0 xs ys
    | _ =>
        if negb (py_eq a b) then
          path +:+ ": value mismatch " +:+ py_repr a +:+ " vs " +:+ py_repr b
        else ""
    end.

(** [_compare_dicts]: prints a line and returns, or raises. *)
Definition _compare_dicts (left right : payload) : io unit :=
  let left := normalize left in
  let right := normalize right in
  if py_eq left right then
    ([Stdout "Success: Python and Java responses match byte-for-byte."], Return tt)
  else
    let left_text := json_dumps left in
    let right_text := json_dumps right in
    if String.eqb left_text right_text then
      ([Stdout "Success: Python and Java responses match after key normalization."], Return tt)
    else
      let diff_message := find_difference left right "root" in
      ([], Raise (SystemExit ("Mismatch detected between Python and Java payloads: "
                              +:+ diff_message))).

(** *** _fetch_python_clan *)

(** What a call may raise besides [SystemExit]: the [RuntimeError] of the
    adapter, or whatever the client library raises, kept by name. *)
Inductive pyerror : Type :=
| ExitError (e : exn)
| RuntimeError (msg : string)
| ClientError (name : string).

Inductive ended (A : Type) : Type :=
| Returned (a : A)
| Failed (e : pyerror).
Arguments Returned {A} a.
Arguments Failed {A} e.

(** A call that raises [SystemExit] or returns, as one that may raise
    anything. *)
Definition lift {A : Type} (r : result A) : ended A :=
  match r with
  | Return a => Returned a
  | Raise e => Failed (ExitError e)
  end.

(** The awaited calls on the client. *)
Inductive call : Type :=
| Login (email password : string)
| GetClan (tag : string)
| Close.

#[global] Instance call_eq_dec : EqDecision call.
Proof. solve_decision. Defined.

(** The client library, as the adapter meets it: how importing and
    constructing the client ends, how [login] and [get_clan] end when
    awaited, what [getattr(clan, "_raw_data", None)] gives on the clan that
    [get_clan] returned, whether [client.http] is true when the [finally]
    clause looks at it, and how [close] ends when awaited. *)
Record CocClient : Type := {
  construct : option pyerror;
  login : string → string → option pyerror;
  get_clan : string → option payload + pyerror;
  http : bool;
  close : option pyerror
}.

(** The [try] block of [_fetch_python_clan]: the calls it made and how it
    ended. *)
Definition fetch_python_body (client : CocClient) (tag email password : string)
  : list call * ended payload :=
  match login client email password with
  | Some e => ([Login email password], Failed e)
  | None =>
      match get_clan client tag with
      | inr e => ([Login email password; GetClan tag], Failed e)
      | inl raw =>
          ([Login email password; GetClan tag],
           match raw with
           | None =>
               Failed (RuntimeError "Python client did not expose raw data; enable raw_attribute")
           | Some raw => Returned raw
           end)
      end
  end.

(** [_fetch_python_clan]: the [finally] clause runs however the block
    ended; an exception of [close] takes the place of that ending. *)
Definition _fetch_python_clan (client : CocClient) (tag email password : string)
  : list call * ended payload :=
  match construct client with
  | Some e => ([], Failed e)
  | None =>
      let '(calls, body) := fetch_python_body client tag email password in
      if http client then
        match close client with
        | Some e => ((calls ++ [Close])%list, Failed e)
        | None => ((calls ++ [Close])%list, body)
        end
      else (calls, body)
  end.

(** *** main *)

(** [d.setdefault(key, value)] on a copy of the environment. *)
Definition setdefault (key value : string) (d : gmap string string) : gmap string string :=
  match d !! key with
  | Some _ => d
  | None => <[key := value]> d
  end.

Section Main.

(** The surroundings of [main]: the platform and library calls of the Java
    adapter, the client library, [REPO_ROOT] and [os.environ], which the
    client library is taken to leave as it is. *)
Variable os_name : string.
Variable path_join : string → string → string.
Variable subprocess_run : list string → gmap string string → string → CompletedProcess.
Variable json_loads : string → payload + string.
Variable client : CocClient.
Variable repo_root : string.
Variable environ : gmap string string.

(** [main]: what it wrote and how it ended. *)
Definition main : list event * ended unit :=
  match _require_env environ "COC_EMAIL" with
  | Raise e => ([], Failed (ExitError e))
  | Return email =>
      match _require_env environ "COC_PASSWORD" with
      | Raise e => ([], Failed (ExitError e))
      | Return password =>
          let tag := default DEFAULT_TAG (environ !! "COC_CLAN_TAG") in
          let fetching_python :=
            Stdout ("Fetching clan " +:+ tag +:+ " using python coc client...") in
          match (_fetch_python_clan client tag email password).2 with
          | Failed e => ([fetching_python], Failed e)
          | Returned python_payload =>
              let env := environ in
              let env := setdefault "COC_EMAIL" email env in
              let env := setdefault "COC_PASSWORD" password env in
              let fetching_java := Stdout "Fetching clan using Java client via Gradle..." in
              let '(written, java) :=
                _fetch_java_clan os_name path_join subprocess_run json_loads tag env repo_root in
              match java with
              | Raise e => (fetching_python :: fetching_java :: written, Failed (ExitError e))
              | Return java_payload =>
                  let '(printed, compared) := _compare_dicts python_payload java_payload in
                  ((fetching_python :: fetching_java :: written ++ printed)%list, lift compared)
              end
          end
      end
  end.

End Main.

(* ===================================================================== *)
(** ** Notions the properties are stated with *)
(* ===================================================================== *)

(** A leaf: neither a list nor a dict. *)
Definition is_scalar (v : payload) : bool :=
  match v with
  | PList _ | PDict _ => false
  | _ => true
  end.

(** The value is a NaN. *)
Definition is_nan (v : payload) : bool :=
  match v with
  | PFloat (Fnan _) => true
  | _ => false
  end.

(** The items of a dict; nothing for any other value. *)
Definition dict_items (v : payload) : list (string * payload) :=
  match v with
  | PDict items => items
  | _ => []
  end.

(** Every key of every dict of a payload, at any depth. *)
Fixpoint all_keys (v : payload) : list string :=
  match v with
  | PList elems => concat (map all_keys elems)
  | PDict items => concat (map (λ '(k, x), k :: all_keys x) items)
  | _ => []
  end.

(** The loop of [find_difference] over the keys of two dicts, with [a[key]]
    and [b[key]] looked up as the source does. *)
Fixpoint dict_walk (a b : list (string * payload)) (path : string) (keys : list string)
  : string :=
  match keys with
  | [] => ""
  | key :: keys' =>
      match dict_get key a, dict_get key b with
      | None, _ => path +:+ "." +:+ key +:+ ": missing from Python payload"
      | Some _, None => path +:+ "." +:+ key +:+ ": missing from Java payload"
      | Some x, Some y =>
          let diff := find_difference x y (path +:+ "." +:+ key) in
          if truthy diff then diff else dict_walk a b path keys'
      end
  end.

(** The loop of [find_difference] over two lists, from index [idx]. *)
Fixpoint list_walk (path : string) (idx : Z) (xs ys : list payload) : string :=
  match xs, ys with
  | aval :: xs', bval :: ys' =>
      let diff := find_difference aval bval (path +:+ "[" +:+ int_repr idx +:+ "]") in
      if truthy diff then diff else list_walk path (idx + 1) xs' ys'
  | _, _ => ""
  end.

(** The two ways [_compare_dicts] reports equivalence, and the way it
    reports a mismatch. *)
Definition match_tier1 : io unit :=
  ([Stdout "Success: Python and Java responses match byte-for-byte."], Return tt).

Definition match_tier2 : io unit :=
  ([Stdout "Success: Python and Java responses match after key normalization."], Return tt).

Definition mismatch (diff : string) : io unit :=
  ([], Raise (SystemExit ("Mismatch detected between Python and Java payloads: " +:+ diff))).

Definition reports_equivalence (o : io unit) : Prop :=
  o = match_tier1 ∨ o = match_tier2.

(** Two lists of items that differ only under keys the filter of
    [normalize] drops: such an item may be present on one side only, or on
    both with any two values; the other items come in the same order, with
    values related by [R]. *)
Inductive items_variant (R : payload → payload → Prop)
  : list (string * payload) → list (string * payload) → Prop :=
| iv_nil : items_variant R [] []
| iv_both k x y xs ys :
    R x y → items_variant R xs ys → items_variant R ((k, x) :: xs) ((k, y) :: ys)
| iv_left k x xs ys :
    kept k = false → items_variant R xs ys → items_variant R ((k, x) :: xs) ys
| iv_right k y xs ys :
    kept k = false → items_variant R xs ys → items_variant R xs ((k, y) :: ys).

(** [ignored_variant p q]: [q] is [p] with values changed, added or removed
    under ignored or private keys only, at any depth. *)
#[warnings="-register-all"]
Inductive ignored_variant : payload → payload → Prop :=
| igv_same v : ignored_variant v v
| igv_list xs ys : Forall2 ignored_variant xs ys → ignored_variant (PList xs) (PList ys)
| igv_dict xs ys :
    items_variant ignored_variant xs ys → ignored_variant (PDict xs) (PDict ys).

(** [numeric_variant p q]: [q] is [p] except that, at some leaves, an
    integer stands where the other has the float of the same value. *)
#[warnings="-register-all"]
Inductive numeric_variant : payload → payload → Prop :=
| nv_same v : numeric_variant v v
| nv_int_float n f : int_float_eq n f = true → numeric_variant (PInt n) (PFloat f)
| nv_float_int n f : int_float_eq n f = true → numeric_variant (PFloat f) (PInt n)
| nv_list xs ys : Forall2 numeric_variant xs ys → numeric_variant (PList xs) (PList ys)
| nv_dict xs ys :
    Forall2 (λ x y, x.1 = y.1 ∧ numeric_variant x.2 y.2) xs ys →
    numeric_variant (PDict xs) (PDict ys).

(** The payload holds a NaN, at any depth. *)
Fixpoint has_nan (v : payload) : bool :=
  match v with
  | PList elems => existsb has_nan elems
  | PDict items => existsb (λ '(_, x), has_nan x) items
  | _ => is_nan v
  end.

(** [agree a b]: the two payloads have the same shape and equal leaves.
    Two leaves agree when they are of one type and [==]; two lists when
    they agree element by element; two dicts when every key of either is
    a key of both, with values that agree. *)
#[warnings="-register-all"]
Inductive agree : payload → payload → Prop :=
| agree_leaf a b :
    is_scalar a = true → type_of a = type_of b → py_eq a b = true → agree a b
| agree_list xs ys : Forall2 agree xs ys → agree (PList xs) (PList ys)
| agree_dict xs ys :
    (∀ k, k ∈ dict_keys xs ∨ k ∈ dict_keys ys →
          ∃ x y, dict_get k xs = Some x ∧ dict_get k ys = Some y ∧ agree x y) →
    agree (PDict xs) (PDict ys).

(** A report is the path followed by what was found there or below. *)
Definition under (path report : string) : Prop := ∃ rest, report = path +:+ rest.

(** The string holds white space only. *)
Fixpoint all_space (s : string) : bool :=
  match s with
  | String c rest => PyStr.isspace c && all_space rest
  | EmptyString => true
  end.

(* ===================================================================== *)
(** ** Induction on payloads *)
(* ===================================================================== *)

Section payload_induction.

Variable P : payload → Prop.
Hypothesis HNone : P PNone.
Hypothesis HBool : ∀ b, P (PBool b).
Hypothesis HInt : ∀ n, P (PInt n).
Hypothesis HFloat : ∀ f, P (PFloat f).
Hypothesis HStr : ∀ s, P (PStr s).
Hypothesis HList : ∀ elems, Forall P elems → P (PList elems).
Hypothesis HDict : ∀ items, Forall (λ kx, P kx.2) items → P (PDict items).

Fixpoint payload_nested_ind (v : payload) : P v :=
  match v with
  | PNone => HNone
  | PBool b => HBool b
  | PInt n => HInt n
  | PFloat f => HFloat f
  | PStr s => HStr s
  | PList elems =>
      HList elems
        ((fix all (xs : list payload) : Forall P xs :=
            match xs with
            | [] => List.Forall_nil P
            | x :: xs' => @List.Forall_cons _ P x xs' (payload_nested_ind x) (all xs')
            end) elems)
  | PDict items =>
      HDict items
        ((fix all (xs : list (string * payload)) : Forall (λ kx, P kx.2) xs :=
            match xs with
            | [] => List.Forall_nil _
            | (k, x) :: xs' =>
                @List.Forall_cons _ (λ kx, P kx.2) (k, x) xs' (payload_nested_ind x) (all xs')
            end) items)
  end.

End payload_induction.

(* ===================================================================== *)
(** ** normalize *)
(* ===================================================================== *)

Lemma in_ignore_keys k :
  k ∈ ignore_keys ↔ k = "builderBaseRank" ∨ k = "status_code" ∨ k = "timestamp".
Proof.
  unfold ignore_keys. rewrite !elem_of_union, !elem_of_singleton. tauto.
Qed.

Lemma startswith_underscore k :
  PyStr.startswith "_" k = true ↔ ∃ rest, k = String "_" rest.
Proof.
  unfold PyStr.startswith. split.
  - destruct k as [|c rest]; cbn [String.prefix]; [discriminate|].
    destruct (ascii_dec "_" c) as [<-|]; [eauto|discriminate].
  - intros [rest ->]. cbn [String.prefix].
    destruct (ascii_dec "_" "_"); [by destruct rest|done].
Qed.

Lemma kept_false k :
  kept k = false ↔ k ∈ ignore_keys ∨ PyStr.startswith "_" k = true.
Proof.
  unfold kept. destruct (PyStr.startswith "_" k); cbn [negb andb].
  - split; auto.
  - rewrite bool_decide_eq_false. split.
    + intros H. left. destruct (decide (k ∈ ignore_keys)) as [|Hn]; [done|].
      by destruct H.
    + intros [H|H]; [|discriminate]. intros Hn. by apply Hn.
Qed.

Lemma normalize_dict items :
  normalize (PDict items) =
  PDict (omap (λ '(k, v), if kept k then Some (k, normalize v) else None) items).
Proof. reflexivity. Qed.

Lemma dict_get_normalize items k :
  dict_get k (dict_items (normalize (PDict items))) =
  if kept k then normalize <$> dict_get k items else None.
Proof.
  rewrite normalize_dict. cbn [dict_items].
  induction items as [|[k' v] items IH]; cbn [omap dict_get list_omap].
  - by destruct (kept k).
  - destruct (kept k') eqn:Hk'; cbn [dict_get].
    + destruct (String.eqb_spec k' k) as [->|Hne]; [by rewrite Hk'|done].
    + destruct (String.eqb_spec k' k) as [->|Hne]; [by rewrite IH, Hk'|done].
Qed.

Lemma dict_keys_normalize items :
  dict_keys (dict_items (normalize (PDict items))) =
  filter (λ k, kept k = true) (dict_keys items).
Proof.
  rewrite normalize_dict. cbn [dict_items]. unfold dict_keys.
  induction items as [|[k v] items IH]; [done|].
  cbn [omap list_omap map fst]. rewrite filter_cons. cbn [fst].
  destruct (kept k) eqn:Hk.
  - rewrite decide_True by done. cbn. by rewrite IH.
  - rewrite decide_False by congruence. done.
Qed.

Lemma normalize_scalar v : is_scalar v = true → normalize v = v.
Proof. by destruct v. Qed.

Lemma all_keys_normalize v : Forall (λ k, kept k = true) (all_keys (normalize v)).
Proof.
  induction v as [| | | | |elems IH|items IH] using payload_nested_ind;
    try by constructor.
  - cbn [normalize all_keys]. induction IH as [|x xs Hx _ IHxs]; [constructor|].
    cbn. apply Forall_app. auto.
  - rewrite normalize_dict. cbn [all_keys].
    induction IH as [|[k x] xs Hx _ IHxs]; [constructor|].
    cbn [omap list_omap]. destruct (kept k) eqn:Hk; [|done].
    cbn. constructor; [done|]. apply Forall_app. auto.
Qed.

Lemma is_nan_normalize v : is_nan (normalize v) = is_nan v.
Proof. by destruct v. Qed.

(* ===================================================================== *)
(** ** The order of the keys *)
(* ===================================================================== *)

Lemma compare_trans_le s t u :
  String.compare s t ≠ Gt → String.compare t u ≠ Gt → String.compare s u ≠ Gt.
Proof.
  revert t u. induction s as [|a s IH]; intros [|b t] [|c u]; cbn; try congruence.
  unfold Ascii.compare.
  destruct (N.compare_spec (N_of_ascii a) (N_of_ascii b)) as [Hab|Hab|Hab];
    destruct (N.compare_spec (N_of_ascii b) (N_of_ascii c)) as [Hbc|Hbc|Hbc];
    try congruence.
  - rewrite Hab, Hbc, N.compare_refl. apply IH.
  - intros _ _. rewrite Hab. by rewrite (proj2 (N.compare_lt_iff _ _) Hbc).
  - intros _ _. rewrite <- Hbc. by rewrite (proj2 (N.compare_lt_iff _ _) Hab).
  - intros _ _. rewrite (proj2 (N.compare_lt_iff _ _) (N.lt_trans _ _ _ Hab Hbc)). done.
Qed.

Lemma leb_not_gt s t : String.leb s t = true ↔ String.compare s t ≠ Gt.
Proof. unfold String.leb. destruct (String.compare s t); split; congruence. Qed.

#[global] Instance pystr_le_trans : Transitive PyStr.le.
Proof.
  intros s t u. unfold PyStr.le. rewrite !leb_not_gt. apply compare_trans_le.
Qed.

#[global] Instance pystr_le_total : Total PyStr.le.
Proof. intros s t. apply String.leb_total. Qed.

#[global] Instance pystr_le_antisym : AntiSymm (=) PyStr.le.
Proof. intros s t. apply String.leb_antisym. Qed.

Lemma elem_of_sorted_keys a b k :
  k ∈ sorted_keys a b ↔ k ∈ dict_keys a ∨ k ∈ dict_keys b.
Proof.
  unfold sorted_keys. rewrite merge_sort_Permutation, elem_of_elements, elem_of_union.
  by rewrite !elem_of_list_to_set.
Qed.

Lemma sorted_keys_sorted a b : StronglySorted PyStr.le (sorted_keys a b).
Proof. apply StronglySorted_merge_sort; apply _. Qed.

Lemma sorted_keys_NoDup a b : NoDup (sorted_keys a b).
Proof. unfold sorted_keys. rewrite merge_sort_Permutation. apply NoDup_elements. Qed.

(* ===================================================================== *)
(** ** find_difference, case by case *)
(* ===================================================================== *)

Lemma truthy_true s : truthy s = true ↔ s ≠ "".
Proof. unfold truthy. rewrite negb_true_iff. apply String.eqb_neq. Qed.

Lemma dict_get_map {A B} (f : A → B) (items : list (string * A)) k :
  dict_get k (map (λ '(k, x), (k, f x)) items) = f <$> dict_get k items.
Proof.
  induction items as [|[k' v] items IH]; [done|]. cbn.
  by destruct (String.eqb k' k).
Qed.

(** Values of two types: reported at once. *)
Lemma type_mismatch_reported a b path :
  type_of a ≠ type_of b →
  find_difference a b path =
  path +:+ ": type mismatch " +:+ type_name (type_of a) +:+ " vs " +:+ type_name (type_of b).
Proof.
  intros H. destruct a; cbn [find_difference]; by rewrite bool_decide_eq_false_2.
Qed.

(** Two dicts: the loop of the source over the sorted keys. *)
Lemma find_difference_dict xs ys path :
  find_difference (PDict xs) (PDict ys) path = dict_walk xs ys path (sorted_keys xs ys).
Proof.
  cbn [find_difference type_of]. rewrite bool_decide_eq_true_2 by done. cbn [negb].
  generalize (sorted_keys xs ys) as keys.
  induction keys as [|key keys IH]; [done|].
  cbn [dict_walk]. rewrite dict_get_map.
  destruct (dict_get key xs) as [x|]; cbn [fmap option_fmap option_map]; [|done].
  destruct (dict_get key ys) as [y|]; [|done].
  destruct (truthy _); [done|]. apply IH.
Qed.

(** Two lists: the lengths first, then the loop over the indices. *)
Lemma find_difference_list xs ys path :
  find_difference (PList xs) (PList ys) path =
  if negb (length xs =? length ys)%nat then
    path +:+ ": list length " +:+ int_repr (Z.of_nat (length xs))
         +:+ " vs " +:+ int_repr (Z.of_nat (length ys))
  else list_walk path 0 xs ys.
Proof.
  cbn [find_difference type_of]. rewrite bool_decide_eq_true_2 by done. cbn [negb].
  destruct (negb _); [done|].
  generalize 0 as idx. revert ys.
  induction xs as [|x xs IH]; intros [|y ys] idx; try done.
  cbn [list_walk]. destruct (truthy _); [done|]. apply IH.
Qed.

(** Two leaves of one type. *)
Lemma find_difference_scalar a b path :
  is_scalar a = true → type_of a = type_of b →
  find_difference a b path =
  if negb (py_eq a b) then path +:+ ": value mismatch " +:+ py_repr a +:+ " vs " +:+ py_repr b
  else "".
Proof.
  intros Hs Ht. destruct a; try discriminate; cbn [find_difference];
    by rewrite bool_decide_eq_true_2.
Qed.

(** The keys before the first one with something to report are passed over. *)
Lemma dict_walk_skip a b path before keys :
  (∀ k, k ∈ before → ∃ x y, dict_get k a = Some x ∧ dict_get k b = Some y ∧
                      find_difference x y (path +:+ "." +:+ k) = "") →
  dict_walk a b path (before ++ keys) = dict_walk a b path keys.
Proof.
  induction before as [|k before IH]; intros H; [done|].
  cbn [app dict_walk].
  destruct (H k) as (x & y & -> & -> & Hd); [left|].
  cbv zeta. rewrite Hd. cbn. apply IH. intros k' Hk'. apply H. by right.
Qed.

(** The indices before the first one with something to report are passed
    over. *)
Lemma list_walk_skip path before_a before_b xs ys idx :
  length before_a = length before_b →
  (∀ i a b, before_a !! i = Some a → before_b !! i = Some b →
            find_difference a b (path +:+ "[" +:+ int_repr (idx + Z.of_nat i) +:+ "]") = "") →
  list_walk path idx (before_a ++ xs) (before_b ++ ys) =
  list_walk path (idx + Z.of_nat (length before_a)) xs ys.
Proof.
  revert before_b idx. induction before_a as [|a before_a IH]; intros [|b before_b] idx Hlen H;
    try discriminate.
  - cbn. by rewrite Z.add_0_r.
  - cbn [app list_walk]. cbv zeta.
    pose proof (H 0%nat a b eq_refl eq_refl) as H0. cbn in H0. rewrite Z.add_0_r in H0.
    rewrite H0. cbn [truthy String.eqb negb].
    rewrite IH.
    + f_equal. cbn [length]. lia.
    + by injection Hlen.
    + intros i a' b' Ha Hb. specialize (H (S i) a' b' Ha Hb).
      by replace (idx + 1 + Z.of_nat i) with (idx + Z.of_nat (S i)) by lia.
Qed.

Lemma find_difference_list_first path before_a x after_a before_b y after_b :
  length before_a = length before_b → length after_a = length after_b →
  (∀ i a b, before_a !! i = Some a → before_b !! i = Some b →
            find_difference a b (path +:+ "[" +:+ int_repr (Z.of_nat i) +:+ "]") = "") →
  find_difference x y (path +:+ "[" +:+ int_repr (Z.of_nat (length before_a)) +:+ "]") ≠ "" →
  find_difference (PList (before_a ++ x :: after_a)) (PList (before_b ++ y :: after_b)) path =
  find_difference x y (path +:+ "[" +:+ int_repr (Z.of_nat (length before_a)) +:+ "]").
Proof.
  intros Hb Ha H Hd. rewrite find_difference_list.
  rewrite !length_app. cbn [length]. rewrite Hb, Ha, Nat.eqb_refl. cbn [negb].
  rewrite list_walk_skip; [|done|by intros; apply H].
  cbn [list_walk]. cbv zeta. rewrite Z.add_0_l, Hb in *.
  apply truthy_true in Hd. by rewrite Hd.
Qed.

(* ===================================================================== *)
(** ** Well-formed payloads and equality *)
(* ===================================================================== *)

Lemma wf_list elems : wf_payload (PList elems) ↔ Forall wf_payload elems.
Proof.
  cbn [wf_payload]. induction elems as [|x xs IH]; [by split; [constructor|]|].
  rewrite Forall_cons, IH. done.
Qed.

Lemma wf_dict items :
  wf_payload (PDict items) ↔ NoDup (dict_keys items) ∧ Forall (λ kx, wf_payload kx.2) items.
Proof.
  cbn [wf_payload]. apply and_iff_compat_l.
  induction items as [|[k x] xs IH]; [by split; [constructor|]|].
  rewrite Forall_cons, IH. done.
Qed.

(** With distinct keys, an item is what its key looks up. *)
Lemma dict_get_elem_of {A} (items : list (string * A)) k x :
  NoDup (dict_keys items) → (k, x) ∈ items → dict_get k items = Some x.
Proof.
  unfold dict_keys. induction items as [|[k' x'] items IH]; cbn; intros Hnd Hin.
  - by apply elem_of_nil in Hin.
  - apply NoDup_cons in Hnd as [Hk' Hnd]. apply elem_of_cons in Hin as [Heq|Hin].
    + injection Heq as -> ->. by rewrite String.eqb_refl.
    + destruct (String.eqb_spec k' k) as [->|Hne]; [|by apply IH].
      destruct Hk'. apply list_elem_of_fmap. by exists (k, x).
Qed.

Lemma wf_normalize v : wf_payload v → wf_payload (normalize v).
Proof.
  induction v as [| | | | |elems IH|items IH] using payload_nested_ind; try done.
  - cbn [normalize]. rewrite !wf_list. intros Hwf.
    apply Forall_fmap. rewrite Forall_forall in *.
    intros x Hx. by apply IH, Hwf.
  - rewrite normalize_dict, !wf_dict. intros [Hnd Hwf]. split.
    + pose proof (dict_keys_normalize items) as Hk.
      rewrite normalize_dict in Hk. cbn [dict_items] in Hk. rewrite Hk.
      by apply NoDup_filter.
    + clear Hnd. induction items as [|[k x] xs IHxs]; [constructor|].
      apply Forall_cons in IH as [Hx IH]. apply Forall_cons in Hwf as [Hw Hwf].
      cbn [omap list_omap]. destruct (kept k); [|by apply IHxs].
      cbn. constructor; [by apply Hx|by apply IHxs].
Qed.

Lemma wf_dict_Permutation xs ys :
  xs ≡ₚ ys → wf_payload (PDict xs) → wf_payload (PDict ys).
Proof.
  intros Hp. rewrite !wf_dict. unfold dict_keys. by rewrite Hp.
Qed.

Lemma py_eq_list xs ys :
  py_eq (PList xs) (PList ys) = true ↔ Forall2 (λ x y, rich_eq x y = true) xs ys.
Proof.
  cbn [py_eq]. revert ys. induction xs as [|x xs IH]; intros [|y ys].
  - split; [constructor|done].
  - split; [done|]. intros H. by apply Forall2_nil_inv_l in H.
  - split; [done|]. intros H. by apply Forall2_nil_inv_r in H.
  - rewrite andb_true_iff, IH, Forall2_cons. done.
Qed.

Lemma py_eq_dict xs ys :
  py_eq (PDict xs) (PDict ys) = true ↔
  length xs = length ys ∧
  Forall (λ kx, ∃ y, dict_get kx.1 ys = Some y ∧ rich_eq kx.2 y = true) xs.
Proof.
  cbn [py_eq]. rewrite andb_true_iff, Nat.eqb_eq. apply and_iff_compat_l.
  induction xs as [|[k x] xs IH]; [by split; [constructor|]|].
  rewrite andb_true_iff, IH, Forall_cons. apply and_iff_compat_r. cbn [fst snd].
  destruct (dict_get k ys) as [y|].
  - split; [eauto|]. by intros (? & [= <-] & ?).
  - split; [done|]. by intros (? & ? & ?).
Qed.

Lemma dyadic_eqb_refl m e : dyadic_eqb m e m e = true.
Proof. unfold dyadic_eqb. apply Z.eqb_refl. Qed.

(** An element of a container is equal to itself, a NaN included. *)
Lemma rich_eq_refl v : wf_payload v → rich_eq v v = true.
Proof.
  induction v as [|b|n|f|s|elems IH|items IH] using payload_nested_ind;
    unfold rich_eq; intros Hwf.
  - done.
  - cbn. by destruct b.
  - cbn. apply Z.eqb_refl.
  - destruct f as [i|neg|neg m e]; cbn.
    + by rewrite N.eqb_refl.
    + by destruct neg.
    + apply dyadic_eqb_refl.
  - cbn. apply String.eqb_refl.
  - apply wf_list in Hwf. cbn [same_object orb]. apply py_eq_list.
    apply Forall_Forall2_diag. rewrite Forall_forall in *. auto.
  - apply wf_dict in Hwf as [Hnd Hwf]. cbn [same_object orb]. apply py_eq_dict.
    split; [done|]. rewrite Forall_forall in *. intros [k x] Hin.
    exists x. split; [by apply dict_get_elem_of|]. by apply (IH (k, x)), (Hwf (k, x)).
Qed.

Lemma rich_eq_py_eq a b : is_nan a = false → rich_eq a b = py_eq a b.
Proof. unfold rich_eq. destruct a as [| | |[]| | |]; try done. Qed.

(** The order of insertion does not matter to [==] on dicts. *)
Lemma py_eq_dict_Permutation xs ys :
  wf_payload (PDict xs) → xs ≡ₚ ys → py_eq (PDict xs) (PDict ys) = true.
Proof.
  intros Hwf Hp. apply py_eq_dict. split; [by apply Permutation_length|].
  pose proof (wf_dict_Permutation _ _ Hp Hwf) as Hwf'.
  apply wf_dict in Hwf as [_ Hwf]. apply wf_dict in Hwf' as [Hnd _].
  rewrite Forall_forall in *. intros [k x] Hin. exists x. split.
  - apply dict_get_elem_of; [done|]. by rewrite <- Hp.
  - apply rich_eq_refl, (Hwf (k, x) Hin).
Qed.

(* ===================================================================== *)
(** ** Payloads that differ where the comparator does not look *)
(* ===================================================================== *)

Lemma ignored_variant_normalize a b :
  ignored_variant a b → normalize a = normalize b.
Proof.
  revert b. induction a as [|b|n|f|s|elems IH|items IH] using payload_nested_ind;
    intros c Hv; inversion Hv; subst; try done.
  - cbn [normalize]. f_equal.
    match goal with H : Forall2 _ elems _ |- _ => rename H into H2 end.
    clear Hv. induction H2 as [|x y xs ys Hxy _ IHxs]; [done|].
    apply Forall_cons in IH as [Hx IH]. cbn. f_equal; auto.
  - rewrite !normalize_dict. f_equal.
    match goal with H : items_variant _ items _ |- _ => rename H into H2 end.
    clear Hv.
    induction H2 as [|k x y xs ys Hxy _ IHxs|k x xs ys Hk _ IHxs|k y xs ys Hk _ IHxs].
    + done.
    + apply Forall_cons in IH as [Hx IH]. cbn [omap list_omap].
      destruct (kept k); [|by apply IHxs].
      cbn in Hx. rewrite (Hx _ Hxy). f_equal. by apply IHxs.
    + apply Forall_cons in IH as [_ IH]. cbn [omap list_omap]. rewrite Hk. by apply IHxs.
    + cbn [omap list_omap]. rewrite Hk. by apply IHxs.
Qed.

Lemma numeric_variant_keys xs ys :
  Forall2 (λ x y : string * payload, x.1 = y.1 ∧ numeric_variant x.2 y.2) xs ys →
  dict_keys xs = dict_keys ys.
Proof.
  unfold dict_keys. induction 1 as [|[] [] ? ? [? ?]]; cbn in *; congruence.
Qed.

Lemma numeric_variant_rich_eq a b :
  wf_payload a → numeric_variant a b → rich_eq a b = true.
Proof.
  revert b. induction a as [|b|n|f|s|elems IH|items IH] using payload_nested_ind;
    intros c Hwf Hv; inversion Hv; subst; try (by apply rich_eq_refl).
  - unfold rich_eq. by cbn.
  - unfold rich_eq. cbn [py_eq scalar_eq py_number number_eq].
    by rewrite orb_true_iff; right.
  - apply wf_list in Hwf. unfold rich_eq. cbn [same_object orb]. apply py_eq_list.
    match goal with H : Forall2 _ elems _ |- _ => rename H into H2 end.
    clear Hv. induction H2 as [|x y xs ys Hxy _ IHxs]; [constructor|].
    apply Forall_cons in IH as [Hx IH]. apply Forall_cons in Hwf as [Hw Hwf].
    constructor; auto.
  - apply wf_dict in Hwf as [Hnd Hwf]. unfold rich_eq. cbn [same_object orb].
    match goal with H : Forall2 _ items _ |- _ => rename H into H2 end.
    apply py_eq_dict. split; [by eapply Forall2_length|].
    rewrite (numeric_variant_keys _ _ H2) in Hnd.
    rewrite Forall_forall in *. intros [k x] Hin.
    apply list_elem_of_lookup in Hin as [i Hi].
    destruct (Forall2_lookup_l _ _ _ _ _ H2 Hi) as ([k' y] & Hj & Hk & Hxy).
    cbn in Hk, Hxy. subst k'. exists y. cbn [fst snd]. split.
    + apply dict_get_elem_of; [done|]. by eapply list_elem_of_lookup_2.
    + apply (IH (k, x)); [by eapply list_elem_of_lookup_2| |done].
      apply (Hwf (k, x)). by eapply list_elem_of_lookup_2.
Qed.

Lemma numeric_variant_normalize a b :
  numeric_variant a b → numeric_variant (normalize a) (normalize b).
Proof.
  revert b. induction a as [|b|n|f|s|elems IH|items IH] using payload_nested_ind;
    intros c Hv; inversion Hv; subst; try (by constructor).
  - cbn [normalize]. apply nv_list.
    match goal with H : Forall2 _ elems _ |- _ => rename H into H2 end.
    clear Hv. induction H2 as [|x y xs ys Hxy _ IHxs]; [constructor|].
    apply Forall_cons in IH as [Hx IH]. cbn. constructor; auto.
  - rewrite !normalize_dict. apply nv_dict.
    match goal with H : Forall2 _ items _ |- _ => rename H into H2 end.
    clear Hv. induction H2 as [|[k x] [k' y] xs ys [Hk Hxy] _ IHxs]; [constructor|].
    apply Forall_cons in IH as [Hx IH]. cbn in Hk, Hxy, Hx. subst k'.
    cbn [omap list_omap]. destruct (kept k); [|by apply IHxs].
    constructor; [|by apply IHxs]. split; [done|]. by apply Hx.
Qed.

(* ===================================================================== *)
(** ** The two tiers *)
(* ===================================================================== *)

Lemma compare_tier1 left right :
  py_eq (normalize left) (normalize right) = true → _compare_dicts left right = match_tier1.
Proof. intros H. unfold _compare_dicts. by rewrite H. Qed.

(** Two payloads with one normal form pass the first tier or the second. *)
Lemma compare_equal_normal left right :
  normalize left = normalize right → reports_equivalence (_compare_dicts left right).
Proof.
  intros H. unfold reports_equivalence, _compare_dicts. rewrite H.
  destruct (py_eq _ _); [by left|]. rewrite String.eqb_refl. by right.
Qed.

Ltac break_goal :=
  repeat match goal with
         | |- _ ∧ _ => split
         | |- _ ↔ _ => split
         | |- ∀ _, _ => intro
         | H : ∃ _, _ |- _ => destruct H
         | H : _ ∧ _ |- _ => destruct H
         | H : _ ∨ _ |- _ => destruct H
         end.

(* ===================================================================== *)
(** ** Properties of the comparator *)
(* ===================================================================== *)

(** C1.  [normalize] drops from a dict exactly the keys in the ignore set
    {builderBaseRank, status_code, timestamp} and the keys that begin with
    an underscore: the keys of the result are the other keys, in their
    order, and each of them holds the normal form of its value.  It
    normalizes a list element by element, each at its index, and gives a
    leaf back unchanged.  Since values and elements are normalized in turn,
    no dict at any depth of a normal form, inside lists included, has a
    dropped key. *)
Theorem normalize_drops_ignored_and_private :
  (∀ k, kept k = false ↔
        k = "builderBaseRank" ∨ k = "status_code" ∨ k = "timestamp" ∨
        ∃ rest, k = String "_" rest) ∧
  (∀ items,
     type_of (normalize (PDict items)) = TDict ∧
     dict_keys (dict_items (normalize (PDict items))) =
       filter (λ k, kept k = true) (dict_keys items) ∧
     ∀ k, dict_get k (dict_items (normalize (PDict items))) =
          if kept k then normalize <$> dict_get k items else None) ∧
  (∀ elems, normalize (PList elems) = PList (map normalize elems)) ∧
  (∀ v, is_scalar v = true → normalize v = v) ∧
  (∀ v, Forall (λ k, kept k = true) (all_keys (normalize v))).
Proof.
  split; [|split; [|split; [|split]]].
  - intros k. rewrite kept_false, in_ignore_keys, startswith_underscore. tauto.
  - intros items. split; [done|]. split; [apply dict_keys_normalize|].
    intros k. apply dict_get_normalize.
  - done.
  - apply normalize_scalar.
  - apply all_keys_normalize.
Qed.

Lemma normalize_drops_ignored_and_private_witness :
  is_scalar (PStr "_id") = true ∧ normalize (PStr "_id") = PStr "_id".
Proof.
  split; [reflexivity|].
  apply (proj1 (proj2 (proj2 (proj2 normalize_drops_ignored_and_private)))).
  reflexivity.
Defined.

(** C2.  When the normal forms of two payloads are not equal by [==] but
    their [json.dumps] texts with sorted keys are the same text,
    [_compare_dicts] prints the second success line and returns. *)
Theorem compare_tier2_fallback left right :
  py_eq (normalize left) (normalize right) = false →
  json_dumps (normalize left) = json_dumps (normalize right) →
  _compare_dicts left right = match_tier2.
Proof.
  intros H1 H2. unfold _compare_dicts. rewrite H1, H2, String.eqb_refl. done.
Qed.

(** Two NaN objects, one per payload: not equal, and the same text. *)
Lemma compare_tier2_fallback_witness :
  _compare_dicts (PDict [("a", PFloat (Fnan 1))]) (PDict [("a", PFloat (Fnan 2))])
  = match_tier2.
Proof. apply compare_tier2_fallback; vm_compute; reflexivity. Defined.

(** C3.  On two dicts [find_difference] goes through the union of the keys
    of both, sorted and without repetition.  If every key before [key] in
    that order is present on both sides with nothing to report below it,
    then what is reported is what [key] gives: missing from the Python
    (left) payload when the left dict lacks it, missing from the Java
    (right) payload when the right one does, and otherwise the difference
    found below it, if there is one.  If no key has anything to report,
    nothing is reported.  Two lists of one length are gone through by
    index in the same way: the first index with a difference below it
    gives the report.  The two examples of the specification follow. *)
Theorem find_difference_reports_first_key :
  (∀ a b, StronglySorted PyStr.le (sorted_keys a b) ∧ NoDup (sorted_keys a b) ∧
          ∀ k, k ∈ sorted_keys a b ↔ k ∈ dict_keys a ∨ k ∈ dict_keys b) ∧
  (∀ a b path before key after,
     sorted_keys a b = (before ++ key :: after)%list →
     (∀ k, k ∈ before → ∃ x y, dict_get k a = Some x ∧ dict_get k b = Some y ∧
                         find_difference x y (path +:+ "." +:+ k) = "") →
     (dict_get key a = None →
      find_difference (PDict a) (PDict b) path =
      path +:+ "." +:+ key +:+ ": missing from Python payload") ∧
     (is_Some (dict_get key a) → dict_get key b = None →
      find_difference (PDict a) (PDict b) path =
      path +:+ "." +:+ key +:+ ": missing from Java payload") ∧
     (∀ x y, dict_get key a = Some x → dict_get key b = Some y →
      find_difference x y (path +:+ "." +:+ key) ≠ "" →
      find_difference (PDict a) (PDict b) path =
      find_difference x y (path +:+ "." +:+ key))) ∧
  (∀ a b path,
     (∀ k, k ∈ sorted_keys a b → ∃ x y, dict_get k a = Some x ∧ dict_get k b = Some y ∧
                                  find_difference x y (path +:+ "." +:+ k) = "") →
     find_difference (PDict a) (PDict b) path = "") ∧
  (∀ path before_a x after_a before_b y after_b,
     length before_a = length before_b → length after_a = length after_b →
     (∀ i a b, before_a !! i = Some a → before_b !! i = Some b →
               find_difference a b (path +:+ "[" +:+ int_repr (Z.of_nat i) +:+ "]") = "") →
     find_difference x y (path +:+ "[" +:+ int_repr (Z.of_nat (length before_a)) +:+ "]") ≠ "" →
     find_difference (PList (before_a ++ x :: after_a)) (PList (before_b ++ y :: after_b)) path =
     find_difference x y (path +:+ "[" +:+ int_repr (Z.of_nat (length before_a)) +:+ "]")) ∧
  _compare_dicts (PDict [("a", PDict [("x", PInt 1); ("y", PInt 2)])])
                 (PDict [("a", PDict [("x", PInt 1); ("y", PInt 3)])])
  = mismatch "root.a.y: value mismatch 2 vs 3" ∧
  _compare_dicts (PDict [("a", PInt 1)]) (PDict [])
  = mismatch "root.a: missing from Java payload".
Proof.
  split; [|split; [|split; [|split; [|split]]]].
  - intros a b. split; [apply sorted_keys_sorted|]. split; [apply sorted_keys_NoDup|].
    intros k. apply elem_of_sorted_keys.
  - intros a b path before key after Hkeys Hbefore.
    rewrite find_difference_dict, Hkeys, dict_walk_skip by done.
    cbn [dict_walk]. split; [|split].
    + by intros ->.
    + intros [x ->] ->. done.
    + intros x y -> -> Hd. cbv zeta. apply truthy_true in Hd. by rewrite Hd.
  - intros a b path H. rewrite find_difference_dict.
    rewrite <- (app_nil_r (sorted_keys a b)). by rewrite dict_walk_skip.
  - apply find_difference_list_first.
  - vm_compute. reflexivity.
  - vm_compute. reflexivity.
Qed.

(** The keys are a, b, c, d: a agrees, b is the first with a report, and
    the missing c on the left is not reached. *)
Lemma find_difference_reports_first_key_witness :
  find_difference (PDict [("a", PInt 1); ("b", PInt 2); ("d", PNone)])
                  (PDict [("d", PNone); ("c", PInt 3); ("a", PInt 1)]) "root"
  = "root.b: missing from Java payload".
Proof.
  refine (proj1 (proj2 (proj1 (proj2 find_difference_reports_first_key)
            [("a", PInt 1); ("b", PInt 2); ("d", PNone)]
            [("d", PNone); ("c", PInt 3); ("a", PInt 1)] "root" ["a"] "b" ["c"; "d"] _ _)) _ _).
  - vm_compute. reflexivity.
  - intros k Hk. apply list_elem_of_singleton in Hk as ->.
    exists (PInt 1), (PInt 1). vm_compute. auto.
  - by exists (PInt 2).
  - reflexivity.
Defined.

(** C4.  When the two values at a path are of two types, [find_difference]
    reports a type mismatch at that path, with the names of the two types;
    the report does not depend on what the values hold, so nothing below
    them is visited.  [{"a": 1}] against [{"a": [1]}] is reported as a type
    mismatch at [root.a]. *)
Theorem find_difference_type_mismatch_stops :
  (∀ a b path,
     type_of a ≠ type_of b →
     find_difference a b path =
     path +:+ ": type mismatch " +:+ type_name (type_of a) +:+ " vs " +:+ type_name (type_of b)) ∧
  _compare_dicts (PDict [("a", PInt 1)]) (PDict [("a", PList [PInt 1])])
  = mismatch "root.a: type mismatch int vs list".
Proof.
  split; [apply type_mismatch_reported|]. vm_compute. reflexivity.
Qed.

Lemma find_difference_type_mismatch_stops_witness :
  find_difference (PInt 1) (PList [PInt 1]) "root.a" = "root.a: type mismatch int vs list".
Proof.
  apply (proj1 find_difference_type_mismatch_stops (PInt 1) (PList [PInt 1])). done.
Defined.

(** C5.  [_compare_dicts] reports equivalence on a payload against itself,
    and on a payload against one that differs from it only by values
    changed, added or removed under ignored or private keys, at any
    depth. *)
Theorem compare_reflexive_up_to_ignored :
  (∀ p, reports_equivalence (_compare_dicts p p)) ∧
  (∀ p q, ignored_variant p q → reports_equivalence (_compare_dicts p q)).
Proof.
  split.
  - intros p. by apply compare_equal_normal.
  - intros p q H. by apply compare_equal_normal, ignored_variant_normalize.
Qed.

Lemma compare_reflexive_up_to_ignored_witness :
  reports_equivalence
    (_compare_dicts
       (PDict [("name", PStr "x"); ("timestamp", PInt 1); ("_cache", PList [PInt 1]);
               ("members", PList [PDict [("tag", PStr "a"); ("builderBaseRank", PInt 3)]])])
       (PDict [("name", PStr "x"); ("timestamp", PInt 2);
               ("members", PList [PDict [("status_code", PInt 200); ("tag", PStr "a")]])])).
Proof.
  apply (proj2 compare_reflexive_up_to_ignored).
  apply igv_dict. apply iv_both; [apply igv_same|].
  apply iv_left; [reflexivity|]. apply iv_right; [reflexivity|].
  apply iv_left; [reflexivity|]. apply iv_both; [|apply iv_nil].
  apply igv_list. constructor; [|constructor].
  apply igv_dict. apply iv_right; [reflexivity|]. apply iv_both; [apply igv_same|].
  apply iv_left; [reflexivity|]. apply iv_nil.
Defined.

(** C6.  [normalize] is idempotent. *)
Theorem normalize_idempotent p : normalize (normalize p) = normalize p.
Proof.
  induction p as [| | | | |elems IH|items IH] using payload_nested_ind; try done.
  - cbn [normalize]. f_equal. rewrite map_map.
    induction IH as [|x xs Hx _ IHxs]; [done|]. cbn. by rewrite Hx, IHxs.
  - rewrite !normalize_dict. f_equal.
    induction IH as [|[k x] xs Hx _ IHxs]; [done|].
    cbn [omap list_omap]. destruct (kept k) eqn:Hk; [|done].
    cbn [omap list_omap]. rewrite Hk. cbn in Hx. by rewrite Hx, IHxs.
Qed.

(** C7.  The order of a list matters and the order of the keys of a dict
    does not: [[1, 2]] against [[2, 1]] is a mismatch, reported at index 0;
    [{"a": 1, "b": 2}] against [{"b": 2, "a": 1}] is a match, as is any
    dict against the same items inserted in another order. *)
Theorem list_order_matters_key_order_does_not :
  _compare_dicts (PList [PInt 1; PInt 2]) (PList [PInt 2; PInt 1])
  = mismatch "root[0]: value mismatch 1 vs 2" ∧
  _compare_dicts (PDict [("a", PInt 1); ("b", PInt 2)]) (PDict [("b", PInt 2); ("a", PInt 1)])
  = match_tier1 ∧
  (∀ xs ys, wf_payload (PDict xs) → xs ≡ₚ ys →
            _compare_dicts (PDict xs) (PDict ys) = match_tier1).
Proof.
  split; [vm_compute; reflexivity|]. split; [vm_compute; reflexivity|].
  intros xs ys Hwf Hp. apply compare_tier1. rewrite !normalize_dict.
  apply py_eq_dict_Permutation; [|by rewrite Hp].
  rewrite <- normalize_dict. by apply wf_normalize.
Qed.

Lemma list_order_matters_key_order_does_not_witness :
  _compare_dicts (PDict [("tag", PStr "#2JLYPYRRY"); ("members", PInt 50); ("name", PNone)])
                 (PDict [("name", PNone); ("tag", PStr "#2JLYPYRRY"); ("members", PInt 50)])
  = match_tier1.
Proof.
  apply (proj2 (proj2 list_order_matters_key_order_does_not)).
  - split; [|cbn; tauto]. apply (bool_decide_unpack _). vm_compute. exact I.
  - symmetry. apply (Permutation_cons_append [("tag", PStr "#2JLYPYRRY"); ("members", PInt 50)]).
Defined.

(** C8, as the specification has it, fails: on [{"a": 1}] against
    [{"a": 1.0}] the first tier does not fail, since [1 == 1.0] holds in
    Python, and the second tier is not what reports the match; the two
    texts, [{"a": 1}] and [{"a": 1.0}], are not even the same. *)
Lemma int_vs_float_passes_tier1 :
  numeric_variant (PDict [("a", PInt 1)]) (PDict [("a", PFloat (Ffin false 1 0))]) ∧
  py_eq (normalize (PDict [("a", PInt 1)])) (normalize (PDict [("a", PFloat (Ffin false 1 0))]))
  ≠ false ∧
  json_dumps (normalize (PDict [("a", PInt 1)]))
  ≠ json_dumps (normalize (PDict [("a", PFloat (Ffin false 1 0))])) ∧
  _compare_dicts (PDict [("a", PInt 1)]) (PDict [("a", PFloat (Ffin false 1 0))])
  ≠ match_tier2.
Proof.
  split; [|split; [|split]].
  - apply nv_dict. constructor; [|constructor]. split; [done|]. by apply nv_int_float.
  - vm_compute. discriminate.
  - vm_compute. discriminate.
  - vm_compute. discriminate.
Qed.

(** C8, amended.  For two payloads that differ only in that a number is an
    integer on one side and the float of the same value on the other, the
    first tier holds and [_compare_dicts] reports the match there.  (The
    keys of each dict are distinct, and the payload is not itself a NaN.) *)
Theorem compare_numeric_variant_tier1 p q :
  wf_payload p → is_nan p = false → numeric_variant p q →
  py_eq (normalize p) (normalize q) = true ∧ _compare_dicts p q = match_tier1.
Proof.
  intros Hwf Hnan Hv.
  assert (py_eq (normalize p) (normalize q) = true) as H.
  { rewrite <- rich_eq_py_eq by by rewrite is_nan_normalize.
    apply numeric_variant_rich_eq; [by apply wf_normalize|by apply numeric_variant_normalize]. }
  split; [done|]. by apply compare_tier1.
Qed.

Lemma compare_numeric_variant_tier1_witness :
  py_eq (normalize (PDict [("level", PInt 12); ("_raw", PNone); ("ratio", PList [PInt 2; PNone])]))
        (normalize (PDict [("level", PFloat (Ffin false 3 2)); ("_raw", PNone);
                           ("ratio", PList [PFloat (Ffin false 1 1); PNone])])) = true ∧
  _compare_dicts (PDict [("level", PInt 12); ("_raw", PNone); ("ratio", PList [PInt 2; PNone])])
                 (PDict [("level", PFloat (Ffin false 3 2)); ("_raw", PNone);
                         ("ratio", PList [PFloat (Ffin false 1 1); PNone])]) = match_tier1.
Proof.
  apply compare_numeric_variant_tier1.
  - split; [|cbn; tauto]. apply (bool_decide_unpack _). vm_compute. exact I.
  - reflexivity.
  - apply nv_dict. repeat (constructor; cbn [fst snd]); done.
Defined.

(** C9.  [_fetch_java_clan] raises [SystemExit] exactly when the
    subprocess exits with a code other than 0, or its standard output is
    empty once stripped, or [json.loads] does not parse the stripped
    output; otherwise it returns what [json.loads] parsed.  Each of the
    three failures has its own message: the exit code (after the standard
    error of the subprocess is written out), the absence of output, or the
    parse error followed by the output. *)
Theorem fetch_java_clan_fails_iff os_name path_join subprocess_run json_loads tag env repo_root :
  let result := subprocess_run (gradle_command os_name path_join tag repo_root) env repo_root in
  let output := PyStr.strip (stdout result) in
  let fetched := _fetch_java_clan os_name path_join subprocess_run json_loads tag env repo_root in
  ((∃ msg, fetched.2 = Raise (SystemExit msg)) ↔
   returncode result ≠ 0 ∨ output = "" ∨ ∃ exc, json_loads output = inr exc) ∧
  (∀ parsed, fetched.2 = Return parsed ↔
             returncode result = 0 ∧ output ≠ "" ∧ json_loads output = inl parsed) ∧
  (returncode result ≠ 0 →
   fetched = ([Stderr (stderr result)],
              Raise (SystemExit ("Java client execution failed with exit code "
                                 +:+ int_repr (returncode result))))) ∧
  (returncode result = 0 → output = "" →
   fetched = ([], Raise (SystemExit "Java client did not return any JSON output"))) ∧
  (∀ exc, returncode result = 0 → output ≠ "" → json_loads output = inr exc →
   fetched = ([], Raise (SystemExit ("Failed to parse Java client output as JSON: " +:+ exc
                                     +:+ newline +:+ "Output was:" +:+ newline +:+ output)))).
Proof.
  intros result output fetched. subst fetched. unfold _fetch_java_clan.
  fold result. fold output.
  destruct (Z.eqb_spec (returncode result) 0) as [Hrc|Hrc]; cbn [negb];
    [destruct (String.eqb_spec output "") as [Hout|Hout];
     [|destruct (json_loads output) as [parsed|exc] eqn:Hj]|];
    cbn [snd]; break_goal; try congruence; eauto 6.
Qed.

(** A build that fails with exit code 1, whatever the parser. *)
Lemma fetch_java_clan_fails_iff_witness :
  _fetch_java_clan "posix" (λ root name, root +:+ "/" +:+ name)
    (λ _ _ _, {| returncode := 1; stdout := ""; stderr := "BUILD FAILED" |})
    (λ _, inr "Expecting value") DEFAULT_TAG ∅ "/repo"
  = ([Stderr "BUILD FAILED"],
     Raise (SystemExit "Java client execution failed with exit code 1")).
Proof.
  pose proof (fetch_java_clan_fails_iff "posix" (λ root name, root +:+ "/" +:+ name)
    (λ _ _ _, {| returncode := 1; stdout := ""; stderr := "BUILD FAILED" |})
    (λ _, inr "Expecting value") DEFAULT_TAG ∅ "/repo") as H.
  cbv zeta in H. apply H. discriminate.
Defined.

(** C10.  [_require_env] raises [SystemExit] with the missing-variable
    message both when the variable is unset and when it is set to the
    empty string, and returns the value of the variable unchanged
    otherwise. *)
Theorem require_env_empty_as_missing (environ : gmap string string) name :
  (environ !! name = None ∨ environ !! name = Some "" →
   _require_env environ name
   = Raise (SystemExit ("Missing required environment variable: " +:+ name))) ∧
  (∀ value, environ !! name = Some value → value ≠ "" →
            _require_env environ name = Return value).
Proof.
  unfold _require_env. split.
  - by intros [-> | ->].
  - intros value -> Hne. by destruct value.
Qed.

Lemma require_env_empty_as_missing_witness :
  _require_env {[ "COC_EMAIL" := "" ]} "COC_EMAIL"
  = Raise (SystemExit "Missing required environment variable: COC_EMAIL") ∧
  _require_env {[ "COC_EMAIL" := "" ]} "COC_PASSWORD"
  = Raise (SystemExit "Missing required environment variable: COC_PASSWORD") ∧
  _require_env {[ "COC_EMAIL" := "a@b.c" ]} "COC_EMAIL" = Return "a@b.c".
Proof.
  split; [|split].
  - apply (proj1 (require_env_empty_as_missing {[ "COC_EMAIL" := "" ]} "COC_EMAIL")).
    right. apply lookup_singleton_eq.
  - apply (proj1 (require_env_empty_as_missing {[ "COC_EMAIL" := "" ]} "COC_PASSWORD")).
    left. by apply lookup_singleton_ne.
  - apply (proj2 (require_env_empty_as_missing {[ "COC_EMAIL" := "a@b.c" ]} "COC_EMAIL")).
    + apply lookup_singleton_eq.
    + discriminate.
Defined.

(* ===================================================================== *)
(** ** More on normalize and find_difference *)
(* ===================================================================== *)

Lemma all_keys_fixed v :
  Forall (λ k, kept k = true) (all_keys v) → normalize v = v.
Proof.
  induction v as [| | | | |elems IH|items IH] using payload_nested_ind; try done.
  - cbn [all_keys normalize]. intros H. f_equal.
    induction IH as [|x xs Hx _ IHxs]; [done|].
    cbn in H. apply Forall_app in H as [H1 H2]. cbn. by rewrite Hx, IHxs.
  - rewrite normalize_dict. cbn [all_keys]. intros H. f_equal.
    induction IH as [|[k x] xs Hx _ IHxs]; [done|].
    cbn in H. apply Forall_cons in H as [Hk H]. apply Forall_app in H as [H1 H2].
    cbn [omap list_omap]. rewrite Hk. cbn in Hx. by rewrite Hx, IHxs.
Qed.

Lemma all_keys_sublist v : all_keys (normalize v) `sublist_of` all_keys v.
Proof.
  induction v as [| | | | |elems IH|items IH] using payload_nested_ind; try done.
  - cbn [normalize all_keys]. induction IH as [|x xs Hx _ IHxs]; [done|].
    cbn. by apply sublist_app.
  - rewrite normalize_dict. cbn [all_keys].
    induction IH as [|[k x] xs Hx _ IHxs]; [done|].
    cbn [omap list_omap]. destruct (kept k); cbn.
    + apply sublist_skip. by apply sublist_app.
    + apply sublist_cons. by apply sublist_inserts_l.
Qed.

Lemma type_of_normalize v : type_of (normalize v) = type_of v.
Proof. by destruct v. Qed.

Lemma append_eq_empty s t : s +:+ t = "" → t = "".
Proof. destruct s; [done|discriminate]. Qed.

Lemma truthy_false s : truthy s = false ↔ s = "".
Proof. unfold truthy. rewrite negb_false_iff. apply String.eqb_eq. Qed.

Lemma dict_get_Some_elem_of {A} (items : list (string * A)) k x :
  dict_get k items = Some x → (k, x) ∈ items.
Proof.
  induction items as [|[k' x'] items IH]; cbn; [done|].
  destruct (String.eqb_spec k' k) as [->|Hne].
  - intros [= ->]. left.
  - intros H. right. by apply IH.
Qed.

(** Nothing is reported by the loop over the keys exactly when every key is
    on both sides, with nothing to report below it. *)
Lemma dict_walk_empty a b path keys :
  dict_walk a b path keys = "" ↔
  ∀ k, k ∈ keys → ∃ x y, dict_get k a = Some x ∧ dict_get k b = Some y ∧
                    find_difference x y (path +:+ "." +:+ k) = "".
Proof.
  split.
  - induction keys as [|key keys IH]; intros H k Hk; [by apply elem_of_nil in Hk|].
    cbn [dict_walk] in H.
    destruct (dict_get key a) as [x|] eqn:Ha;
      [|by apply append_eq_empty in H].
    destruct (dict_get key b) as [y|] eqn:Hb;
      [|by apply append_eq_empty in H].
    cbv zeta in H. destruct (truthy _) eqn:Ht.
    + apply truthy_true in Ht. done.
    + apply truthy_false in Ht. apply elem_of_cons in Hk as [->|Hk]; [eauto|].
      by apply IH.
  - intros H. rewrite <- (app_nil_r keys). by rewrite dict_walk_skip.
Qed.

Lemma list_walk_empty path idx xs ys :
  length xs = length ys →
  Forall (λ x, ∀ y p, find_difference x y p = "" ↔ agree x y) xs →
  list_walk path idx xs ys = "" ↔ Forall2 agree xs ys.
Proof.
  revert ys idx. induction xs as [|x xs IH]; intros [|y ys] idx Hlen Hall; try discriminate.
  - split; [constructor|done].
  - apply Forall_cons in Hall as [Hx Hall]. injection Hlen as Hlen.
    cbn [list_walk]. cbv zeta. rewrite Forall2_cons, <- (IH ys (idx + 1)) by done.
    rewrite <- (Hx y (path +:+ "[" +:+ int_repr idx +:+ "]")).
    destruct (truthy _) eqn:Ht.
    + apply truthy_true in Ht. split; [done|]. by intros [? _].
    + apply truthy_false in Ht. split; [done|]. by intros [_ ?].
Qed.

Lemma agree_type a b : agree a b → type_of a = type_of b.
Proof. by destruct 1. Qed.

Lemma find_difference_agree a b path : find_difference a b path = "" ↔ agree a b.
Proof.
  revert b path.
  induction a as [|b0|n|f|s|elems IH|items IH] using payload_nested_ind; intros b path.
  1-5: match goal with
       | |- find_difference ?a _ _ = _ ↔ _ => destruct (decide (type_of a = type_of b)) as [Ht|Ht]
       end;
    [ rewrite find_difference_scalar by done; destruct (py_eq _ b) eqn:He; cbn [negb];
      [ split; [intros _; by apply agree_leaf|done]
      | split; [intros H; by apply append_eq_empty in H
               |intros H; inversion H; subst; congruence] ]
    | rewrite type_mismatch_reported by done;
      split; [intros H; by apply append_eq_empty in H
             |intros H; by apply agree_type in H] ].
  - destruct b as [| | | | |ys|];
      try (rewrite type_mismatch_reported by done;
           split; [intros H; by apply append_eq_empty in H|intros H; by apply agree_type in H]).
    rewrite find_difference_list.
    destruct (Nat.eqb_spec (length elems) (length ys)) as [Hlen|Hlen]; cbn [negb].
    + rewrite list_walk_empty by done. split; [apply agree_list|].
      intros H; inversion H; subst; done.
    + split; [intros H; by apply append_eq_empty in H|].
      intros H; inversion H; subst; [done|]. destruct Hlen. by eapply Forall2_length.
  - destruct b as [| | | | | |ys];
      try (rewrite type_mismatch_reported by done;
           split; [intros H; by apply append_eq_empty in H|intros H; by apply agree_type in H]).
    rewrite find_difference_dict, dict_walk_empty. split.
    + intros H. apply agree_dict. intros k Hk.
      apply elem_of_sorted_keys in Hk. destruct (H k Hk) as (x & y & Hx & Hy & Hd).
      exists x, y. split; [done|]. split; [done|].
      rewrite Forall_forall in IH. apply (IH (k, x) (dict_get_Some_elem_of _ _ _ Hx)) in Hd. done.
    + intros H; inversion H as [| |? ? Hall]; subst; [done|]. intros k Hk.
      apply elem_of_sorted_keys in Hk. destruct (Hall k Hk) as (x & y & Hx & Hy & Hd).
      exists x, y. split; [done|]. split; [done|].
      rewrite Forall_forall in IH. by apply (IH (k, x) (dict_get_Some_elem_of _ _ _ Hx)).
Qed.

Lemma elem_of_dict_keys {A} (items : list (string * A)) k :
  k ∈ dict_keys items ↔ ∃ x, dict_get k items = Some x.
Proof.
  unfold dict_keys. induction items as [|[k' v] items IH]; cbn.
  - rewrite elem_of_nil. split; [done|]. by intros [? ?].
  - rewrite elem_of_cons, IH. destruct (String.eqb_spec k' k) as [->|Hne].
    + split; eauto.
    + split; [intros [->|]; done|auto].
Qed.

(** Two dicts with distinct keys and the same keys have as many items. *)
Lemma same_keys_length {A B} (xs : list (string * A)) (ys : list (string * B)) :
  NoDup (dict_keys xs) → NoDup (dict_keys ys) →
  (∀ k, k ∈ dict_keys xs ↔ k ∈ dict_keys ys) → length xs = length ys.
Proof.
  intros Hx Hy H. pose proof (NoDup_Permutation _ _ Hx Hy H) as Hp.
  apply Permutation_length in Hp. unfold dict_keys in Hp. by rewrite !length_map in Hp.
Qed.

(** With distinct keys, a dict with no more items than another and all its
    keys in the other has the keys of the other. *)
Lemma keys_included_same {A B} (xs : list (string * A)) (ys : list (string * B)) :
  NoDup (dict_keys xs) → length xs = length ys →
  (∀ k, k ∈ dict_keys xs → k ∈ dict_keys ys) →
  ∀ k, k ∈ dict_keys ys → k ∈ dict_keys xs.
Proof.
  intros Hx Hlen H k Hk.
  assert (dict_keys xs ≡ₚ dict_keys ys) as Hp.
  { apply submseteq_length_Permutation; [by apply NoDup_submseteq|].
    unfold dict_keys. rewrite !length_map. lia. }
  by rewrite Hp.
Qed.

Lemma agree_py_eq a b : wf_payload a → wf_payload b → agree a b → py_eq a b = true.
Proof.
  revert b. induction a as [|b0|n|f|s|elems IH|items IH] using payload_nested_ind;
    intros b Hwa Hwb Hag; inversion Hag as [? ? Hs Ht He|? ? H2|? ? Hall]; subst; try done.
  - apply py_eq_list. apply wf_list in Hwa, Hwb.
    clear Hag. induction H2 as [|x y xs ys Hxy _ IHxs]; [constructor|].
    apply Forall_cons in IH as [Hx IH]. apply Forall_cons in Hwa as [Hwx Hwa].
    apply Forall_cons in Hwb as [Hwy Hwb]. constructor; [|by apply IHxs].
    unfold rich_eq. rewrite (Hx y) by done. apply orb_true_r.
  - apply wf_dict in Hwa as [Hna Hwa]. apply wf_dict in Hwb as [Hnb Hwb].
    apply py_eq_dict. split.
    + apply same_keys_length; [done..|]. intros k. split; intros Hk.
      * destruct (Hall k) as (x & y & Hx & Hy & _); [by left|].
        apply elem_of_dict_keys. eauto.
      * destruct (Hall k) as (x & y & Hx & Hy & _); [by right|].
        apply elem_of_dict_keys. eauto.
    + rewrite Forall_forall in *. intros [k x] Hin. cbn [fst snd].
      destruct (Hall k) as (x' & y & Hx & Hy & Hxy).
      { left. apply list_elem_of_fmap. by exists (k, x). }
      rewrite (dict_get_elem_of _ _ _ Hna Hin) in Hx. injection Hx as <-.
      exists y. split; [done|]. unfold rich_eq.
      assert (py_eq x y = true) as ->; [|apply orb_true_r].
      apply (IH (k, x) Hin y); [by apply (Hwa (k, x))| |done].
      apply (Hwb (k, y)). by apply dict_get_Some_elem_of.
Qed.

Lemma append_assoc (s t u : string) : (s +:+ t) +:+ u = s +:+ (t +:+ u).
Proof.
  induction s as [|c s IH]; [done|].
  change (String c ((s +:+ t) +:+ u) = String c (s +:+ (t +:+ u))). by rewrite IH.
Qed.

Lemma under_here path rest : under path (path +:+ rest).
Proof. by exists rest. Qed.

Lemma under_below path step report : under (path +:+ step) report → under path report.
Proof. intros [rest ->]. exists (step +:+ rest). apply append_assoc. Qed.

Lemma dict_walk_under a b path keys :
  (∀ x y p, (∃ k, (k, x) ∈ a) → find_difference x y p = "" ∨ under p (find_difference x y p)) →
  dict_walk a b path keys = "" ∨ under path (dict_walk a b path keys).
Proof.
  intros H. induction keys as [|key keys IH]; [by left|].
  cbn [dict_walk].
  destruct (dict_get key a) as [x|] eqn:Ha; [|right; apply under_here].
  destruct (dict_get key b) as [y|]; [|right; apply under_here].
  cbv zeta. destruct (truthy _) eqn:Ht; [|done].
  right. destruct (H x y (path +:+ "." +:+ key)) as [He|Hu].
  - exists key. by apply dict_get_Some_elem_of.
  - apply truthy_true in Ht. done.
  - by apply (under_below path ("." +:+ key)).
Qed.

Lemma list_walk_under path idx xs ys :
  Forall (λ x, ∀ y p, find_difference x y p = "" ∨ under p (find_difference x y p)) xs →
  list_walk path idx xs ys = "" ∨ under path (list_walk path idx xs ys).
Proof.
  revert ys idx. induction xs as [|x xs IH]; intros [|y ys] idx H; try by left.
  apply Forall_cons in H as [Hx H]. cbn [list_walk]. cbv zeta.
  destruct (truthy _) eqn:Ht; [|by apply IH].
  right. destruct (Hx y (path +:+ "[" +:+ int_repr idx +:+ "]")) as [He|Hu].
  - apply truthy_true in Ht. done.
  - by apply (under_below path ("[" +:+ int_repr idx +:+ "]")).
Qed.

Lemma find_difference_under a b path :
  find_difference a b path = "" ∨ under path (find_difference a b path).
Proof.
  revert b path.
  induction a as [|b0|n|f|s|elems IH|items IH] using payload_nested_ind; intros b path.
  1-5: match goal with
       | |- find_difference ?a _ _ = _ ∨ _ => destruct (decide (type_of a = type_of b)) as [Ht|Ht]
       end;
    [ rewrite find_difference_scalar by done; destruct (negb _); [right; apply under_here|by left]
    | rewrite type_mismatch_reported by done; right; apply under_here ].
  - destruct b as [| | | | |ys|];
      try (rewrite type_mismatch_reported by done; right; apply under_here).
    rewrite find_difference_list. destruct (negb _); [right; apply under_here|].
    by apply list_walk_under.
  - destruct b as [| | | | | |ys];
      try (rewrite type_mismatch_reported by done; right; apply under_here).
    rewrite find_difference_dict. apply dict_walk_under.
    intros x y p [k Hk]. rewrite Forall_forall in IH. apply (IH (k, x) Hk).
Qed.

(** *** Symmetry of equality *)

Lemma dyadic_eqb_sym m1 e1 m2 e2 : dyadic_eqb m1 e1 m2 e2 = dyadic_eqb m2 e2 m1 e1.
Proof. unfold dyadic_eqb. by rewrite Z.eqb_sym, Z.min_comm. Qed.

Lemma float_eq_sym f g : float_eq f g = float_eq g f.
Proof.
  destruct f as [|s1|s1 m1 e1], g as [|s2|s2 m2 e2]; cbn; try done.
  - by destruct s1, s2.
  - apply dyadic_eqb_sym.
Qed.

Lemma number_eq_sym x y : number_eq x y = number_eq y x.
Proof.
  destruct x, y; cbn; try done; [apply Z.eqb_sym|apply float_eq_sym].
Qed.

Lemma scalar_eq_sym a b : scalar_eq a b = scalar_eq b a.
Proof.
  destruct a, b; cbn; try done; try apply number_eq_sym; try apply Z.eqb_sym;
    try apply float_eq_sym; try apply String.eqb_sym.
Qed.

Lemma same_object_sym a b : same_object a b = same_object b a.
Proof. destruct a as [| | |[]| | |], b as [| | |[]| | |]; cbn; try done. apply N.eqb_sym. Qed.

Lemma rich_eq_sym_1 a b : wf_payload a → wf_payload b → rich_eq a b = true → rich_eq b a = true.
Proof.
  revert b. induction a as [|b0|n|f|s|elems IH|items IH] using payload_nested_ind;
    intros b Hwa Hwb.
  1-5: unfold rich_eq; rewrite same_object_sym;
    destruct b; cbn [py_eq]; try done;
    by rewrite scalar_eq_sym.
  - destruct b as [| | | | |ys|]; try done. unfold rich_eq. cbn [same_object orb].
    rewrite !py_eq_list. apply wf_list in Hwa, Hwb. intros H2.
    induction H2 as [|x y xs ys Hxy _ IHxs]; [constructor|].
    apply Forall_cons in IH as [Hx IH]. apply Forall_cons in Hwa as [Hwx Hwa].
    apply Forall_cons in Hwb as [Hwy Hwb]. constructor; auto.
  - destruct b as [| | | | | |ys]; try done. unfold rich_eq. cbn [same_object orb].
    rewrite !py_eq_dict. apply wf_dict in Hwa as [Hna Hwa]. apply wf_dict in Hwb as [Hnb Hwb].
    intros [Hlen Hall]. split; [done|]. rewrite Forall_forall in *.
    assert (∀ k, k ∈ dict_keys ys → k ∈ dict_keys items) as Hkeys.
    { apply keys_included_same; [done..|]. intros k Hk.
      apply list_elem_of_fmap in Hk as ([k' x] & -> & Hin).
      destruct (Hall _ Hin) as (y & Hy & _). apply elem_of_dict_keys. eauto. }
    intros [k y] Hin. cbn [fst snd].
    destruct (proj1 (elem_of_dict_keys items k)) as [x Hx].
    { apply Hkeys, list_elem_of_fmap. by exists (k, y). }
    exists x. split; [done|]. apply dict_get_Some_elem_of in Hx as Hxin.
    destruct (Hall _ Hxin) as (y' & Hy' & Hxy). cbn [fst snd] in *.
    rewrite (dict_get_elem_of _ _ _ Hnb Hin) in Hy'. injection Hy' as <-.
    apply (IH (k, x) Hxin); [by apply (Hwa (k, x))|by apply (Hwb (k, y))|done].
Qed.

Lemma rich_eq_sym a b : wf_payload a → wf_payload b → rich_eq a b = rich_eq b a.
Proof.
  intros Ha Hb. destruct (rich_eq a b) eqn:H1, (rich_eq b a) eqn:H2; try done.
  - by rewrite rich_eq_sym_1 in H2.
  - by rewrite rich_eq_sym_1 in H1.
Qed.

Lemma py_eq_sym a b : wf_payload a → wf_payload b → py_eq a b = py_eq b a.
Proof.
  intros Ha Hb. destruct (is_nan a) eqn:Hn.
  - destruct a as [| | |[]| | |]; try done. destruct b; cbn; try done. by destruct f.
  - rewrite <- rich_eq_py_eq by done. destruct (is_nan b) eqn:Hn'.
    + destruct b as [| | |[]| | |]; try done. unfold rich_eq.
      destruct a; cbn; try done. by destruct f.
    + rewrite <- (rich_eq_py_eq b a) by done. by apply rich_eq_sym.
Qed.

Lemma rich_eq_scalar_l a b : is_scalar a = true → rich_eq a b = true → is_scalar b = true.
Proof. unfold rich_eq. destruct a as [| | |[]| | |], b; cbn; try done. Qed.

Lemma py_eq_dict_keys xs ys :
  NoDup (dict_keys xs) → py_eq (PDict xs) (PDict ys) = true →
  ∀ k, k ∈ dict_keys xs ↔ k ∈ dict_keys ys.
Proof.
  intros Hn [Hlen Hall]%py_eq_dict. rewrite Forall_forall in Hall.
  assert (∀ k, k ∈ dict_keys xs → k ∈ dict_keys ys) as Hsub.
  { intros k Hk. apply list_elem_of_fmap in Hk as ([k' x] & -> & Hin).
    destruct (Hall _ Hin) as (y & Hy & _). apply elem_of_dict_keys. eauto. }
  intros k. split; [apply Hsub|]. by apply keys_included_same.
Qed.

Lemma elem_of_normalize_items items k x' :
  (k, x') ∈ dict_items (normalize (PDict items)) ↔
  kept k = true ∧ ∃ x, (k, x) ∈ items ∧ x' = normalize x.
Proof.
  rewrite normalize_dict. cbn [dict_items]. rewrite list_elem_of_omap. split.
  - intros ([k0 x] & Hin & Hf). destruct (kept k0) eqn:Hk; [|done].
    injection Hf as <- <-. eauto.
  - intros (Hk & x & Hin & ->). exists (k, x). by rewrite Hk.
Qed.

(** Equal payloads have equal normal forms. *)
Lemma rich_eq_normalize a b :
  wf_payload a → wf_payload b → rich_eq a b = true →
  rich_eq (normalize a) (normalize b) = true.
Proof.
  revert b. induction a as [|b0|n|f|s|elems IH|items IH] using payload_nested_ind;
    intros b Hwa Hwb He.
  1-5: rewrite (normalize_scalar b); [done|by eapply rich_eq_scalar_l; [|exact He]].
  - destruct b as [| | | | |ys|]; try done. unfold rich_eq in *. cbn [same_object orb] in *.
    cbn [normalize]. apply py_eq_list in He. apply py_eq_list.
    apply wf_list in Hwa, Hwb.
    induction He as [|x y xs ys Hxy _ IHxs]; [constructor|].
    apply Forall_cons in IH as [Hx IH]. apply Forall_cons in Hwa as [Hwx Hwa].
    apply Forall_cons in Hwb as [Hwy Hwb]. cbn. constructor; [by apply Hx|by apply IHxs].
  - destruct b as [| | | | | |ys]; try done. unfold rich_eq in *. cbn [same_object orb] in *.
    pose proof (wf_normalize _ Hwa) as Hwa'. pose proof (wf_normalize _ Hwb) as Hwb'.
    rewrite normalize_dict in Hwa', Hwb' |- *. rewrite normalize_dict.
    apply wf_dict in Hwa as [Hna Hwa]. apply wf_dict in Hwb as [Hnb Hwb].
    apply wf_dict in Hwa' as [Hna' _]. apply wf_dict in Hwb' as [Hnb' _].
    pose proof (py_eq_dict_keys _ _ Hna He) as Hkeys.
    apply py_eq_dict in He as [_ Hall]. rewrite Forall_forall in *.
    apply py_eq_dict. split.
    + apply same_keys_length; [done..|]. intros k.
      pose proof (dict_keys_normalize items) as H1. pose proof (dict_keys_normalize ys) as H2.
      rewrite normalize_dict in H1, H2. cbn [dict_items] in H1, H2.
      rewrite H1, H2, !list_elem_of_filter, Hkeys. done.
    + rewrite Forall_forall. intros [k x'] Hin. cbn [fst snd].
      pose proof (elem_of_normalize_items items k x') as Hel.
      rewrite normalize_dict in Hel. cbn [dict_items] in Hel.
      apply Hel in Hin as (Hk & x & Hin & ->).
      destruct (Hall _ Hin) as (y & Hy & Hxy). cbn [fst snd] in *.
      exists (normalize y). split.
      * pose proof (dict_get_normalize ys k) as Hg.
        rewrite normalize_dict in Hg. cbn [dict_items] in Hg. by rewrite Hg, Hk, Hy.
      * apply (IH (k, x) Hin); [by apply (Hwa (k, x))| |done].
        apply (Hwb (k, y)). by apply dict_get_Some_elem_of.
Qed.

(** *** A payload against itself *)

Lemma agree_self v : has_nan v = false → agree v v.
Proof.
  induction v as [|b0|n|f|s|elems IH|items IH] using payload_nested_ind; intros Hn.
  1-3, 5: by apply agree_leaf; [done|done|rewrite <- rich_eq_py_eq by done; apply rich_eq_refl].
  - destruct f as [i|neg|neg m e]; [done|..];
      by apply agree_leaf; [done|done|rewrite <- rich_eq_py_eq by done; apply rich_eq_refl].
  - apply agree_list. cbn [has_nan] in Hn.
    induction IH as [|x xs Hx _ IHxs]; [constructor|].
    cbn in Hn. apply orb_false_iff in Hn as [H1 H2]. constructor; auto.
  - apply agree_dict. intros k Hk. assert (k ∈ dict_keys items) as Hk' by by destruct Hk.
    apply elem_of_dict_keys in Hk' as [x Hx]. exists x, x. split; [done|]. split; [done|].
    apply dict_get_Some_elem_of in Hx. rewrite Forall_forall in IH. apply (IH (k, x) Hx).
    cbn [has_nan] in Hn. rewrite <- not_true_iff_false, existsb_exists in Hn.
    apply not_true_iff_false. intros Hx'. apply Hn. exists (k, x). split; [|done].
    by apply list_elem_of_In.
Qed.

Lemma agree_self_inv v : wf_payload v → agree v v → has_nan v = false.
Proof.
  induction v as [|b0|n|f|s|elems IH|items IH] using payload_nested_ind;
    intros Hwf Hag; inversion Hag as [? ? Hs Ht He|? ? H2|? ? Hall]; subst; try done.
  - by destruct f.
  - apply wf_list in Hwf. cbn [has_nan]. clear Hag.
    induction IH as [|x xs Hx _ IHxs]; [done|].
    apply Forall_cons in Hwf as [Hwx Hwf]. apply Forall2_cons in H2 as [Hxx H2].
    cbn. rewrite Hx, IHxs; done.
  - apply wf_dict in Hwf as [Hnd Hwf]. cbn [has_nan].
    apply not_true_iff_false. rewrite existsb_exists. intros ([k x] & Hin & Hn).
    apply list_elem_of_In in Hin. rewrite Forall_forall in *.
    destruct (Hall k) as (x1 & x2 & H1 & H2 & Hxx).
    { left. apply list_elem_of_fmap. by exists (k, x). }
    rewrite (dict_get_elem_of _ _ _ Hnd Hin) in H1, H2.
    injection H1 as <-. injection H2 as <-.
    assert (has_nan x = false) as Hf
      by (apply (IH (k, x) Hin); [by apply (Hwf (k, x))|done]).
    cbn in Hn. congruence.
Qed.

(** *** The outcome of the comparator *)

Lemma compare_tier1_iff left right :
  _compare_dicts left right = match_tier1 ↔ py_eq (normalize left) (normalize right) = true.
Proof.
  split; [|apply compare_tier1]. unfold _compare_dicts.
  destruct (py_eq _ _); [done|]. by destruct (String.eqb _ _).
Qed.

Lemma compare_tier2_iff left right :
  _compare_dicts left right = match_tier2 ↔
  py_eq (normalize left) (normalize right) = false ∧
  json_dumps (normalize left) = json_dumps (normalize right).
Proof.
  unfold _compare_dicts. destruct (py_eq _ _); [by split; [|intros []]|].
  destruct (String.eqb_spec (json_dumps (normalize left)) (json_dumps (normalize right))).
  - done.
  - split; [done|]. by intros [].
Qed.

Lemma compare_mismatch_iff left right d :
  _compare_dicts left right = mismatch d ↔
  py_eq (normalize left) (normalize right) = false ∧
  json_dumps (normalize left) ≠ json_dumps (normalize right) ∧
  d = find_difference (normalize left) (normalize right) "root".
Proof.
  unfold _compare_dicts. destruct (py_eq _ _); [by split; [|intros []]|].
  destruct (String.eqb_spec (json_dumps (normalize left)) (json_dumps (normalize right))).
  - split; [done|]. by intros (_ & ? & _).
  - unfold mismatch. split.
    + intros [= H]. split; [done|]. split; [done|].
      by apply (inj (String.append _)) in H.
    + by intros (_ & _ & ->).
Qed.

(* ===================================================================== *)
(** ** strip *)
(* ===================================================================== *)

Lemma append_cons c (s t : string) : String c s +:+ t = String c (s +:+ t).
Proof. reflexivity. Qed.

Lemma append_nil_l (t : string) : "" +:+ t = t.
Proof. reflexivity. Qed.

Lemma lstrip_all_space s : PyStr.lstrip s = "" ↔ all_space s = true.
Proof.
  induction s as [|c s IH]; cbn; [done|]. destruct (PyStr.isspace c); [done|]. by split.
Qed.

Lemma rstrip_all_space s : all_space s = true → PyStr.rstrip s = "".
Proof.
  induction s as [|c s IH]; cbn; [done|]. intros [Hc Hs]%andb_true_iff.
  by rewrite IH, Hc.
Qed.

Lemma lstrip_head s : PyStr.lstrip s = "" ∨ ∃ c rest, PyStr.lstrip s = String c rest ∧ PyStr.isspace c = false.
Proof.
  induction s as [|c s IH]; cbn; [by left|]. destruct (PyStr.isspace c) eqn:Hc; [done|].
  right. eauto.
Qed.

Lemma strip_all_space s : PyStr.strip s = "" ↔ all_space s = true.
Proof.
  unfold PyStr.strip. split.
  - intros H. apply lstrip_all_space. destruct (lstrip_head s) as [|(c & rest & Hl & Hc)]; [done|].
    rewrite Hl in H. cbn in H. by rewrite Hc in H.
  - intros H. apply lstrip_all_space in H. by rewrite H.
Qed.

Lemma lstrip_app_l pad s : all_space pad = true → PyStr.lstrip (pad +:+ s) = PyStr.lstrip s.
Proof.
  induction pad as [|c pad IH]; [done|]. cbn [all_space]. intros [Hc Hs]%andb_true_iff.
  rewrite append_cons. cbn [PyStr.lstrip]. rewrite Hc. by apply IH.
Qed.

Lemma lstrip_app_r s pad : all_space s = false → PyStr.lstrip (s +:+ pad) = PyStr.lstrip s +:+ pad.
Proof.
  induction s as [|c s IH]; [done|]. cbn [all_space]. rewrite append_cons. cbn [PyStr.lstrip].
  destruct (PyStr.isspace c); cbn [andb]; [apply IH|done].
Qed.

Lemma all_space_app s t : all_space (s +:+ t) = all_space s && all_space t.
Proof.
  induction s as [|c s IH]; [done|]. rewrite append_cons. cbn [all_space].
  by rewrite IH, andb_assoc.
Qed.

Lemma rstrip_app_r s pad : all_space pad = true → PyStr.rstrip (s +:+ pad) = PyStr.rstrip s.
Proof.
  intros Hp. induction s as [|c s IH]; [by apply rstrip_all_space|].
  rewrite append_cons. cbn [PyStr.rstrip]. by rewrite IH.
Qed.

(** White space around a text does not change what [strip] gives. *)
Lemma strip_padded pad_l s pad_r :
  all_space pad_l = true → all_space pad_r = true →
  PyStr.strip (pad_l +:+ s +:+ pad_r) = PyStr.strip s.
Proof.
  intros Hl Hr. unfold PyStr.strip. rewrite lstrip_app_l by done.
  destruct (all_space s) eqn:Hs.
  - rewrite (proj2 (lstrip_all_space (s +:+ pad_r))) by by rewrite all_space_app, Hs, Hr.
    by rewrite (proj2 (lstrip_all_space s)).
  - rewrite lstrip_app_r by done. by apply rstrip_app_r.
Qed.

(* ===================================================================== *)
(** ** The environment, the Python adapter and main *)
(* ===================================================================== *)

Lemma require_env_Return environ name value :
  _require_env environ name = Return value ↔ environ !! name = Some value ∧ value ≠ "".
Proof.
  unfold _require_env. destruct (environ !! name) as [[|c v]|];
    break_goal; try congruence; try done.
Qed.

Lemma require_env_Raise environ name e :
  _require_env environ name = Raise e ↔
  (environ !! name = None ∨ environ !! name = Some "") ∧
  e = SystemExit ("Missing required environment variable: " +:+ name).
Proof.
  unfold _require_env. destruct (environ !! name) as [[|c v]|];
    break_goal; try congruence; auto.
Qed.

Lemma setdefault_present key value (d : gmap string string) old :
  d !! key = Some old → setdefault key value d = d.
Proof. intros H. unfold setdefault. by rewrite H. Qed.

Lemma fetch_python_body_calls client tag email password :
  (fetch_python_body client tag email password).1 =
  Login email password :: match login client email password with Some _ => [] | None => [GetClan tag] end.
Proof.
  unfold fetch_python_body. destruct (login _ _ _); [done|]. by destruct (get_clan _ _).
Qed.

Lemma fetch_python_calls client tag email password :
  construct client = None →
  (_fetch_python_clan client tag email password).1 =
  ((fetch_python_body client tag email password).1 ++ (if http client then [Close] else []))%list.
Proof.
  intros Hc. unfold _fetch_python_clan. rewrite Hc.
  destruct (fetch_python_body _ _ _ _) as [calls body]. cbn [fst].
  destruct (http client); [by destruct (close client)|]. by rewrite app_nil_r.
Qed.

(** The environment handed to the subprocess is [os.environ]: both
    variables are in it, or [main] would not have come this far. *)
Lemma main_env_unchanged (environ : gmap string string) email password :
  _require_env environ "COC_EMAIL" = Return email →
  _require_env environ "COC_PASSWORD" = Return password →
  setdefault "COC_PASSWORD" password (setdefault "COC_EMAIL" email environ) = environ.
Proof.
  intros [He _]%require_env_Return [Hp _]%require_env_Return.
  rewrite (setdefault_present "COC_EMAIL" email environ email) by done.
  by apply (setdefault_present _ _ _ password).
Qed.

Lemma compare_returns left right :
  (_compare_dicts left right).2 = Return tt ↔ reports_equivalence (_compare_dicts left right).
Proof.
  unfold reports_equivalence, _compare_dicts.
  destruct (py_eq _ _); [by split; [left|]|].
  destruct (String.eqb _ _); [by split; [right|]|].
  split; [done|]. by intros [|].
Qed.

(* ===================================================================== *)
(** ** Further properties of the script *)
(* ===================================================================== *)

(** X1.  The payloads [normalize] leaves as they are, are exactly those in
    which no dict, at any depth, has an ignored or private key. *)
Theorem normalize_fixed_points v :
  normalize v = v ↔ Forall (λ k, kept k = true) (all_keys v).
Proof.
  split; [|apply all_keys_fixed]. intros H. rewrite <- H. apply all_keys_normalize.
Qed.

(** X2.  [normalize] gives a value of the type it was given, introduces no
    key (the keys of the normal form are keys of the payload, in their
    order), and keeps the keys of every dict distinct. *)
Theorem normalize_keeps_shape v :
  type_of (normalize v) = type_of v ∧
  all_keys (normalize v) `sublist_of` all_keys v ∧
  (wf_payload v → wf_payload (normalize v)).
Proof.
  split; [apply type_of_normalize|]. split; [apply all_keys_sublist|apply wf_normalize].
Qed.

Lemma normalize_keeps_shape_witness :
  wf_payload (normalize (PDict [("a", PList [PDict [("_x", PNone); ("b", PInt 1)]]);
                                ("timestamp", PInt 0)])).
Proof.
  apply (proj2 (proj2 (normalize_keeps_shape _))).
  split; [apply (bool_decide_unpack _); vm_compute; exact I|].
  cbn. repeat split; try done; apply (bool_decide_unpack _); vm_compute; exact I.
Defined.

(** X3.  [find_difference] reports nothing exactly when the two payloads
    agree: leaves of one type that are [==], lists of one length that agree
    index by index, dicts with the same keys whose values agree.  The
    path does not matter to whether something is reported. *)
Theorem find_difference_silent_iff_agree a b path :
  find_difference a b path = "" ↔ agree a b.
Proof. apply find_difference_agree. Qed.

(** X4.  When [_compare_dicts] exits with a mismatch, on payloads whose
    dicts have distinct keys, the difference it names is not empty and
    starts with [root]: a failed comparison always points at a place. *)
Theorem mismatch_names_a_place left right diff :
  wf_payload left → wf_payload right →
  _compare_dicts left right = mismatch diff →
  diff ≠ "" ∧ under "root" diff.
Proof.
  intros Hl Hr (He & _ & ->)%compare_mismatch_iff.
  assert (find_difference (normalize left) (normalize right) "root" ≠ "") as Hd.
  { intros Hd. apply find_difference_agree, agree_py_eq in Hd; [congruence|..];
      by apply wf_normalize. }
  split; [done|]. by destruct (find_difference_under (normalize left) (normalize right) "root").
Qed.

Lemma mismatch_names_a_place_witness :
  "root[0]: value mismatch 1 vs 2" ≠ "" ∧ under "root" "root[0]: value mismatch 1 vs 2".
Proof.
  apply (mismatch_names_a_place (PList [PInt 1; PInt 2]) (PList [PInt 2; PInt 1])).
  - cbn. tauto.
  - cbn. tauto.
  - vm_compute. reflexivity.
Defined.

(** X5.  The verdict of [_compare_dicts] does not depend on which payload
    is given first: a match at the first tier, a match at the second tier
    and a mismatch each stay what they are when the two payloads are
    exchanged (the text of a mismatch may change). *)
Theorem compare_verdict_symmetric left right :
  wf_payload left → wf_payload right →
  (_compare_dicts left right = match_tier1 ↔ _compare_dicts right left = match_tier1) ∧
  (_compare_dicts left right = match_tier2 ↔ _compare_dicts right left = match_tier2) ∧
  ((∃ diff, _compare_dicts left right = mismatch diff) ↔
   (∃ diff, _compare_dicts right left = mismatch diff)).
Proof.
  intros Hl Hr. rewrite !compare_tier1_iff, !compare_tier2_iff.
  setoid_rewrite compare_mismatch_iff.
  rewrite (py_eq_sym (normalize left) (normalize right)) by by apply wf_normalize.
  split; [done|]. split; [split; intros [? ?]; done|].
  split; intros (d & ? & ? & _); eexists; eauto.
Qed.

Lemma compare_verdict_symmetric_witness :
  _compare_dicts (PDict [("b", PNone); ("a", PFloat (Ffin false 1 0))])
                 (PDict [("a", PInt 1); ("b", PNone)]) = match_tier1.
Proof.
  assert (wf_payload (PDict [("a", PInt 1); ("b", PNone)])) as Hl
    by (split; [apply (bool_decide_unpack _); vm_compute; exact I|cbn; tauto]).
  assert (wf_payload (PDict [("b", PNone); ("a", PFloat (Ffin false 1 0))])) as Hr
    by (split; [apply (bool_decide_unpack _); vm_compute; exact I|cbn; tauto]).
  apply (proj1 (proj1 (compare_verdict_symmetric _ _ Hl Hr))). vm_compute. reflexivity.
Defined.

(** X6.  Normalization never breaks a match: two payloads (with distinct
    keys in every dict) that are already [==] are reported as matching at
    the first tier. *)
Theorem equal_payloads_match left right :
  wf_payload left → wf_payload right → py_eq left right = true →
  _compare_dicts left right = match_tier1.
Proof.
  intros Hl Hr He. apply compare_tier1.
  assert (is_nan left = false) as Hn.
  { destruct left as [| | |[]| | |]; try done. by destruct right. }
  rewrite <- rich_eq_py_eq by by rewrite is_nan_normalize.
  apply rich_eq_normalize; [done..|]. by rewrite rich_eq_py_eq.
Qed.

Lemma equal_payloads_match_witness :
  _compare_dicts (PDict [("n", PInt 2); ("_t", PInt 1)])
                 (PDict [("_t", PBool true); ("n", PFloat (Ffin false 1 1))])
  = match_tier1.
Proof.
  apply equal_payloads_match.
  - split; [apply (bool_decide_unpack _); vm_compute; exact I|cbn; tauto].
  - split; [apply (bool_decide_unpack _); vm_compute; exact I|cbn; tauto].
  - vm_compute. reflexivity.
Defined.

(** X7.  [find_difference] on a payload against itself reports nothing
    exactly when the payload holds no NaN: a NaN is reported as a value
    mismatch with itself, since [a != b] holds of it. *)
Theorem find_difference_self v path :
  wf_payload v → (find_difference v v path = "" ↔ has_nan v = false).
Proof.
  intros Hwf. rewrite find_difference_agree. split; [by apply agree_self_inv|apply agree_self].
Qed.

Lemma find_difference_self_witness :
  find_difference (PDict [("a", PList [PFloat (Fnan 7)])])
                  (PDict [("a", PList [PFloat (Fnan 7)])]) "root" = ""
  ↔ has_nan (PDict [("a", PList [PFloat (Fnan 7)])]) = false.
Proof.
  apply find_difference_self.
  split; [apply (bool_decide_unpack _); vm_compute; exact I|cbn; tauto].
Defined.

(** X8.  [_compare_dicts] looks at normal forms only: giving it the normal
    forms of two payloads is giving it the payloads. *)
Theorem compare_of_normal_forms left right :
  _compare_dicts (normalize left) (normalize right) = _compare_dicts left right.
Proof.
  unfold _compare_dicts.
  by rewrite !(all_keys_fixed (normalize _)) by apply all_keys_normalize.
Qed.

(** X9.  White space before and after the output of the subprocess does
    not change what [_fetch_java_clan] does: a run that differs from
    another only by such padding of its standard output is fetched to the
    same outcome. *)
Theorem fetch_java_clan_ignores_padding
    os_name path_join run run' json_loads tag env repo_root pad_l pad_r :
  let cmd := gradle_command os_name path_join tag repo_root in
  all_space pad_l = true → all_space pad_r = true →
  returncode (run' cmd env repo_root) = returncode (run cmd env repo_root) →
  stderr (run' cmd env repo_root) = stderr (run cmd env repo_root) →
  stdout (run' cmd env repo_root) = pad_l +:+ stdout (run cmd env repo_root) +:+ pad_r →
  _fetch_java_clan os_name path_join run' json_loads tag env repo_root =
  _fetch_java_clan os_name path_join run json_loads tag env repo_root.
Proof.
  intros cmd Hl Hr Hrc Herr Hout. unfold _fetch_java_clan. fold cmd.
  by rewrite Hrc, Herr, Hout, strip_padded.
Qed.

Lemma fetch_java_clan_ignores_padding_witness :
  _fetch_java_clan "posix" (λ root name, root +:+ "/" +:+ name)
    (λ _ _ _, {| returncode := 0; stdout := newline +:+ "{}" +:+ " " +:+ newline; stderr := "" |})
    (λ text, if String.eqb text "{}" then inl (PDict []) else inr "Expecting value")
    DEFAULT_TAG ∅ "/repo"
  =
  _fetch_java_clan "posix" (λ root name, root +:+ "/" +:+ name)
    (λ _ _ _, {| returncode := 0; stdout := "{}"; stderr := "" |})
    (λ text, if String.eqb text "{}" then inl (PDict []) else inr "Expecting value")
    DEFAULT_TAG ∅ "/repo".
Proof.
  apply (fetch_java_clan_ignores_padding _ _ _ _ _ _ _ _ newline (" " +:+ newline));
    reflexivity.
Defined.

(** X10.  When the subprocess exits with code 0, [_fetch_java_clan] fails
    for want of output exactly when the standard output holds white space
    only (or nothing at all); [json.loads] is not asked then. *)
Theorem fetch_java_clan_blank_output
    os_name path_join subprocess_run json_loads tag env repo_root :
  let result := subprocess_run (gradle_command os_name path_join tag repo_root) env repo_root in
  returncode result = 0 →
  (_fetch_java_clan os_name path_join subprocess_run json_loads tag env repo_root
   = ([], Raise (SystemExit "Java client did not return any JSON output"))
   ↔ all_space (stdout result) = true).
Proof.
  intros result Hrc. unfold _fetch_java_clan. fold result. rewrite Hrc. cbn [Z.eqb negb].
  rewrite <- strip_all_space.
  destruct (String.eqb_spec (PyStr.strip (stdout result)) "") as [He|Hne]; [done|].
  split; [|done]. by destruct (json_loads _).
Qed.

Lemma fetch_java_clan_blank_output_witness :
  _fetch_java_clan "posix" (λ root name, root +:+ "/" +:+ name)
    (λ _ _ _, {| returncode := 0; stdout := " " +:+ newline; stderr := "" |})
    (λ _, inl PNone) DEFAULT_TAG ∅ "/repo"
  = ([], Raise (SystemExit "Java client did not return any JSON output")).
Proof.
  apply (fetch_java_clan_blank_output "posix" (λ root name, root +:+ "/" +:+ name)
    (λ _ _ _, {| returncode := 0; stdout := " " +:+ newline; stderr := "" |})
    (λ _, inl PNone) DEFAULT_TAG ∅ "/repo"); reflexivity.
Defined.

(** X11.  [_require_env] returns a value exactly when the variable is set
    to that value and the value is not the empty string, so what it
    returns is never empty; it raises exactly when the variable is unset
    or empty. *)
Theorem require_env_returns_iff (environ : gmap string string) name :
  (∀ value, _require_env environ name = Return value ↔
            environ !! name = Some value ∧ value ≠ "") ∧
  ((∃ e, _require_env environ name = Raise e) ↔
   environ !! name = None ∨ environ !! name = Some "").
Proof.
  split; [intros value; apply require_env_Return|]. split.
  - intros [e He]. by apply require_env_Raise in He as [? _].
  - intros H. eexists. by apply require_env_Raise.
Qed.

(** X12.  [_fetch_python_clan] awaits [login] first, [get_clan] only after
    [login] returned, and [close] last, exactly when [client.http] is true
    at the [finally] clause, whether the block returned or raised.  When
    the client cannot even be constructed, nothing is awaited. *)
Theorem fetch_python_clan_closes client tag email password :
  (construct client ≠ None → (_fetch_python_clan client tag email password).1 = []) ∧
  (construct client = None →
   let calls := (_fetch_python_clan client tag email password).1 in
   calls =
     (Login email password ::
      match login client email password with Some _ => [] | None => [GetClan tag] end ++
      (if http client then [Close] else []))%list ∧
   (Close ∈ calls ↔ http client = true) ∧
   (http client = true → last calls = Some Close)).
Proof.
  split.
  - unfold _fetch_python_clan. by destruct (construct client).
  - intros Hc calls. subst calls. rewrite fetch_python_calls, fetch_python_body_calls by done.
    split; [done|]. destruct (http client), (login client email password); cbn;
      rewrite ?elem_of_cons, ?elem_of_nil; intuition (try discriminate; auto).
Qed.

(** A login that fails: [get_clan] is not awaited, [close] is. *)
Lemma fetch_python_clan_closes_witness :
  Close ∈ (_fetch_python_clan
             {| construct := None; login := λ _ _, Some (ClientError "InvalidCredentials");
                get_clan := λ _, inr (ClientError "NotFound"); http := true; close := None |}
             DEFAULT_TAG "a@b.c" "secret").1.
Proof.
  pose proof (fetch_python_clan_closes
             {| construct := None; login := λ _ _, Some (ClientError "InvalidCredentials");
                get_clan := λ _, inr (ClientError "NotFound"); http := true; close := None |}
             DEFAULT_TAG "a@b.c" "secret") as [_ H].
  cbv zeta in H. by apply H.
Defined.

(** X13.  [_fetch_python_clan] returns the raw data exactly when the client
    was constructed, [login] and [get_clan] returned, the clan has raw data
    and [close], if awaited, returned.  A clan without raw data gives the
    [RuntimeError] of the adapter, and an exception of [close] takes the
    place of whatever the block returned or raised. *)
Theorem fetch_python_clan_returns_iff client tag email password :
  (∀ raw, (_fetch_python_clan client tag email password).2 = Returned raw ↔
          construct client = None ∧ login client email password = None ∧
          get_clan client tag = inl (Some raw) ∧
          (http client = false ∨ close client = None)) ∧
  (construct client = None → login client email password = None →
   get_clan client tag = inl None → http client = false ∨ close client = None →
   (_fetch_python_clan client tag email password).2 =
   Failed (RuntimeError "Python client did not expose raw data; enable raw_attribute")) ∧
  (∀ e, construct client = None → http client = true → close client = Some e →
        (_fetch_python_clan client tag email password).2 = Failed e).
Proof.
  unfold _fetch_python_clan, fetch_python_body.
  destruct (construct client), (login client email password), (get_clan client tag) as [[raw|]|],
    (http client), (close client); cbn [snd]; break_goal; try congruence; eauto 6.
Qed.

Lemma fetch_python_clan_returns_iff_witness :
  (_fetch_python_clan
     {| construct := None; login := λ _ _, None; get_clan := λ _, inl None;
        http := true; close := None |} DEFAULT_TAG "a@b.c" "secret").2 =
  Failed (RuntimeError "Python client did not expose raw data; enable raw_attribute").
Proof.
  apply (proj1 (proj2 (fetch_python_clan_returns_iff _ _ _ _))); try done. by right.
Defined.

(** X14.  [main] checks [COC_EMAIL] first and [COC_PASSWORD] second, and
    when one of them is unset or empty it exits with the message for that
    variable before it has written anything: the outcome does not depend
    on the client or on the subprocess, which are not reached. *)
Theorem main_needs_credentials
    os_name path_join subprocess_run json_loads client repo_root (environ : gmap string string) :
  (environ !! "COC_EMAIL" = None ∨ environ !! "COC_EMAIL" = Some "" →
   main os_name path_join subprocess_run json_loads client repo_root environ =
   ([], Failed (ExitError (SystemExit "Missing required environment variable: COC_EMAIL")))) ∧
  (∀ email, environ !! "COC_EMAIL" = Some email → email ≠ "" →
   environ !! "COC_PASSWORD" = None ∨ environ !! "COC_PASSWORD" = Some "" →
   main os_name path_join subprocess_run json_loads client repo_root environ =
   ([], Failed (ExitError (SystemExit "Missing required environment variable: COC_PASSWORD")))).
Proof.
  unfold main. split.
  - intros H. destruct (_require_env environ "COC_EMAIL") as [v|e] eqn:He.
    + apply require_env_Return in He as [? ?]. destruct H; congruence.
    + by apply require_env_Raise in He as [_ ->].
  - intros email He Hne H.
    rewrite (proj2 (require_env_Return environ "COC_EMAIL" email)) by done.
    destruct (_require_env environ "COC_PASSWORD") as [v|e] eqn:Hp.
    + apply require_env_Return in Hp as [? ?]. destruct H; congruence.
    + by apply require_env_Raise in Hp as [_ ->].
Qed.

Lemma main_needs_credentials_witness :
  main "posix" (λ root name, root +:+ "/" +:+ name)
    (λ _ _ _, {| returncode := 0; stdout := "{}"; stderr := "" |})
    (λ _, inl (PDict []))
    {| construct := None; login := λ _ _, None; get_clan := λ _, inl (Some (PDict []));
       http := true; close := None |}
    "/repo" {[ "COC_EMAIL" := "a@b.c" ]}
  = ([], Failed (ExitError (SystemExit "Missing required environment variable: COC_PASSWORD"))).
Proof.
  apply (proj2 (main_needs_credentials _ _ _ _ _ _ _) "a@b.c").
  - apply lookup_singleton_eq.
  - discriminate.
  - left. by apply lookup_singleton_ne.
Defined.

(** X15.  The two [setdefault] calls of [main] never change anything: the
    subprocess is run with [os.environ] as it is, under the command line
    for the tag.  So [main] does the same with any two subprocess runners
    that agree on that one call. *)
Theorem main_passes_environment_unchanged
    os_name path_join run run' json_loads client repo_root (environ : gmap string string) :
  let tag := default DEFAULT_TAG (environ !! "COC_CLAN_TAG") in
  run (gradle_command os_name path_join tag repo_root) environ repo_root =
  run' (gradle_command os_name path_join tag repo_root) environ repo_root →
  main os_name path_join run json_loads client repo_root environ =
  main os_name path_join run' json_loads client repo_root environ.
Proof.
  intros tag H. unfold main. fold tag.
  destruct (_require_env environ "COC_EMAIL") as [email|] eqn:He; [|done].
  destruct (_require_env environ "COC_PASSWORD") as [password|] eqn:Hp; [|done].
  destruct (_fetch_python_clan client tag email password).2; [|done].
  cbv zeta. rewrite main_env_unchanged by done.
  unfold _fetch_java_clan. by rewrite H.
Qed.

(** The second runner fails on any environment but [os.environ]. *)
Lemma main_passes_environment_unchanged_witness :
  main "posix" (λ root name, root +:+ "/" +:+ name)
    (λ _ env _, {| returncode := 0; stdout := "{}"; stderr := "" |})
    (λ _, inl (PDict []))
    {| construct := None; login := λ _ _, None; get_clan := λ _, inl (Some (PDict []));
       http := true; close := None |}
    "/repo" {[ "COC_EMAIL" := "a@b.c"; "COC_PASSWORD" := "secret" ]}
  =
  main "posix" (λ root name, root +:+ "/" +:+ name)
    (λ _ env _, if bool_decide (env = {[ "COC_EMAIL" := "a@b.c"; "COC_PASSWORD" := "secret" ]})
                then {| returncode := 0; stdout := "{}"; stderr := "" |}
                else {| returncode := 1; stdout := ""; stderr := "" |})
    (λ _, inl (PDict []))
    {| construct := None; login := λ _ _, None; get_clan := λ _, inl (Some (PDict []));
       http := true; close := None |}
    "/repo" {[ "COC_EMAIL" := "a@b.c"; "COC_PASSWORD" := "secret" ]}.
Proof.
  apply main_passes_environment_unchanged. cbv zeta. by rewrite bool_decide_eq_true_2.
Defined.

(** X16.  [main] returns normally exactly when both credentials are set and
    not empty, the Python fetch returned a payload, the Java fetch, run
    with [os.environ], returned a payload, and [_compare_dicts] reports the
    two equivalent.  The tag is [COC_CLAN_TAG] when that is set, empty or
    not, and [DEFAULT_TAG] otherwise. *)
Theorem main_succeeds_iff
    os_name path_join subprocess_run json_loads client repo_root (environ : gmap string string) :
  let tag := default DEFAULT_TAG (environ !! "COC_CLAN_TAG") in
  (main os_name path_join subprocess_run json_loads client repo_root environ).2 = Returned tt ↔
  ∃ email password python_payload java_payload,
    _require_env environ "COC_EMAIL" = Return email ∧
    _require_env environ "COC_PASSWORD" = Return password ∧
    (_fetch_python_clan client tag email password).2 = Returned python_payload ∧
    (_fetch_java_clan os_name path_join subprocess_run json_loads tag environ repo_root).2
    = Return java_payload ∧
    reports_equivalence (_compare_dicts python_payload java_payload).
Proof.
  intros tag. unfold main. fold tag.
  destruct (_require_env environ "COC_EMAIL") as [email|] eqn:He;
    [|split; [done|by intros (? & ? & ? & ? & ? & _)]].
  destruct (_require_env environ "COC_PASSWORD") as [password|] eqn:Hp;
    [|split; [done|by intros (? & ? & ? & ? & _ & ? & _)]].
  destruct (_fetch_python_clan client tag email password).2 as [p|] eqn:Hpy;
    [|split; [done|intros (? & ? & ? & ? & [= <-] & [= <-] & ? & _); congruence]].
  cbv zeta. rewrite main_env_unchanged by done.
  destruct (_fetch_java_clan _ _ _ _ _ _ _) as [written [j|]] eqn:Hj; cbn [snd].
  - destruct (_compare_dicts p j) as [printed compared] eqn:Hc. cbn [snd]. split.
    + intros Hr. exists email, password, p, j. repeat split; try done.
      apply compare_returns. rewrite Hc. cbn [snd]. destruct compared as [[]|]; done.
    + intros (? & ? & p' & j' & [= <-] & [= <-] & Hp' & [= <-] & Hr).
      assert (p' = p) as -> by congruence.
      apply compare_returns in Hr. rewrite Hc in Hr. cbn [snd] in Hr. by rewrite Hr.
  - split; [done|]. by intros (? & ? & ? & ? & _ & _ & _ & ? & _).
Qed.
